(** * mc_mujoco: look-up table with linear interpolation and the
      chattering-free joint friction model

    Shallow embedding of [src/LookUpTable/LookUpTable.h] and
    [src/mj_friction.cpp] / [src/mj_friction.h].

    Numbers.  [utl::LookUpTable<T>] is embedded twice.  [LookUpTable] is
    the template over exact rationals [Q], where [+ - * /], the
    comparisons and [floor] keep their mathematical meaning: it carries
    the properties of the control flow (policies, emptiness, exceptions,
    what [create] overwrites) and those of the friction step, whose
    [double] members are rationals too.  [LookUpTable64] is the template
    at [double], the one instance the sources make, over IEEE 754 binary64
    with every operation rounded: it carries the properties that depend on
    the numbers computed (sample count and abscissae, interval index,
    value at the sample points, order of the values).

    Outcomes.  A call either returns or throws; operations whose result
    the language leaves undefined (the conversion of a floating value
    outside the range of [size_t], the dereference of a null [shared_ptr])
    are a third outcome, [undefined_behaviour]. *)

From Stdlib Require Import String QArith Qround ZArith List Bool Lia Lqa.
From Stdlib Require Import SpecFloat.
Import ListNotations.

Local Open Scope Q_scope.

(** ** Outcomes of a call *)

Inductive exn : Type :=
| out_of_range (what : string)      (* std::out_of_range *)
| undefined_behaviour
| length_error.                     (* std::length_error *)

Inductive result (A : Type) : Type :=
| Ok (a : A)
| Raise (ex : exn).
Arguments Ok {A} a.
Arguments Raise {A} ex.

Definition bind {A B : Type} (r : result A) (k : A -> result B) : result B :=
  match r with
  | Ok a => k a
  | Raise ex => Raise ex
  end.

Notation "x <- c ;; k" := (bind c (fun x => k))
  (at level 61, c at next level, right associativity).

(** [a < b] and [a == b] of the source, as tests. *)
Definition Qlt_bool (a b : Q) : bool := negb (Qle_bool b a).

(** [static_cast<size_t>(d)] of an integral floating value [d]: defined
    only when the value fits the 64-bit unsigned range. *)
Definition SIZE_MAX : Z := (2 ^ 64 - 1)%Z.

Definition to_size_t (z : Z) : option nat :=
  if ((0 <=? z) && (z <=? SIZE_MAX))%Z then Some (Z.to_nat z) else None.

(** ** utl::LookUpTable<T> *)

Module LookUpTable.

Inductive OutOfBounds : Type := Fail | BoundValue | Zero.

(** The members [table_], [min_], [max_], [step_], [outbounds_]. *)
Record t : Type := mk {
  table_ : list (Q * Q);
  min_ : Q;
  max_ : Q;
  step_ : Q;
  outbounds_ : OutOfBounds
}.

Definition what_uninitialized : string :=
  "Uninitialized table. Call create() before use.".
Definition what_out_of_bound : string := "Out of bound access".

Section Members.

(** Value of a member that no initialiser has written. *)
Variable indeterminate : Q.

(** [LookUpTable()] *)
Definition default_ctor : t :=
  mk [] indeterminate indeterminate indeterminate Zero.

(** [std::vector::resize]: keeps the first [n] elements and pads with
    value-initialised pairs. *)
Definition resize (n : nat) (v : list (Q * Q)) : list (Q * Q) :=
  firstn n v ++ repeat (0, 0) (n - length v).

(** [v[i]] and [v[i] = p] for [i < v.size()]. *)
Definition at_ (v : list (Q * Q)) (i : nat) : Q * Q := nth i v (0, 0).

Fixpoint assign (v : list (Q * Q)) (i : nat) (p : Q * Q) : list (Q * Q) :=
  match v, i with
  | [], _ => []
  | _ :: v', O => p :: v'
  | q :: v', S i' => q :: assign v' i' p
  end.

(** State of the loop of [create]: the vector and the arguments [f] has
    been called with so far, oldest first. *)
Definition loop_state : Type := (list (Q * Q) * list Q)%type.

(** One iteration of the [for] loop of [create]:
    [table_[i].first = min_ + static_cast<T>(i) * step_;]
    [table_[i].second = f(table_[i].first);] *)
Definition create_body (mn st : Q) (f : Q -> Q) (s : loop_state) (i : nat)
  : loop_state :=
  let '(tbl, calls) := s in
  let tbl1 := assign tbl i (mn + inject_Z (Z.of_nat i) * st, snd (at_ tbl i)) in
  let arg := fst (at_ tbl1 i) in
  let tbl2 := assign tbl1 i (fst (at_ tbl1 i), f arg) in
  (tbl2, calls ++ [arg]).

(** What a call of [create] leaves behind: the value returned, the object
    and the calls made to [f]. *)
Record created : Type := mk_created {
  returned : result bool;
  object : t;
  calls : list Q
}.

(** [bool create(const T & min, const T & max, const T & step, MappingFunction f)] *)
Definition create (self : t) (mn mx st : Q) (f : Q -> Q) : created :=
  if Qlt_bool mx mn || Qeq_bool st 0 then mk_created (Ok false) self []
  else
    let self1 := mk (table_ self) mn mx st (outbounds_ self) in
    match to_size_t (Qfloor ((mx - mn) / st) + 1) with
    | None => mk_created (Raise undefined_behaviour) self1 []
    | Some tableSize =>
        let v := resize tableSize (table_ self) in
        let '(tbl, cs) :=
          fold_left (create_body mn st f) (seq 0 (length v)) (v, []) in
        mk_created (Ok true) (mk tbl mn mx st (outbounds_ self)) cs
    end.

(** [LookUpTable(min, max, step, f, outbounds = Zero)]: the value returned
    by [create] is dropped. *)
Definition ctor (mn mx st : Q) (f : Q -> Q) (outbounds : OutOfBounds)
  : result t :=
  let c := create (mk [] indeterminate indeterminate indeterminate outbounds)
                  mn mx st f in
  _ <- returned c ;; Ok (object c).

Definition ctor_default_policy (mn mx st : Q) (f : Q -> Q) : result t :=
  ctor mn mx st f Zero.

End Members.

(** [bool empty()] *)
Definition empty (self : t) : bool :=
  match table_ self with [] => true | _ => false end.

(** [T operator()(const T & x)] *)
Definition evaluate (self : t) (x : Q) : result Q :=
  if empty self then Raise (out_of_range what_uninitialized)
  else
    let tbl := table_ self in
    let maxIndex := (length tbl - 1)%nat in
    if Qlt_bool x (min_ self) || Qlt_bool (max_ self) x then
      match outbounds_ self with
      | Zero => Ok 0
      | BoundValue =>
          if Qlt_bool x (min_ self) then Ok (snd (at_ tbl 0))
          else Ok (snd (at_ tbl maxIndex))
      | Fail => Raise (out_of_range what_out_of_bound)
      end
    else
      match to_size_t (Qfloor ((x - min_ self) / step_ self)) with
      | None => Raise undefined_behaviour
      | Some k =>
          let i := Nat.min k maxIndex in
          if (i <? maxIndex)%nat then
            Ok (snd (at_ tbl i)
                + (snd (at_ tbl (i + 1)) - snd (at_ tbl i)) * (x - fst (at_ tbl i))
                  / (fst (at_ tbl (i + 1)) - fst (at_ tbl i)))
          else Ok (snd (at_ tbl i))
      end.

End LookUpTable.

(** ** Vocabulary of the properties of the table *)

Module LookUpTableTerms.
Import LookUpTable.

(** The abscissa and the pair written by iteration [i] of [create]. *)
Definition sample_x (mn st : Q) (i : nat) : Q := mn + inject_Z (Z.of_nat i) * st.
Definition sample (mn st : Q) (f : Q -> Q) (i : nat) : Q * Q :=
  (sample_x mn st i, f (sample_x mn st i)).

(** The number of samples, [floor((max - min) / step) + 1]. *)
Definition tableSize (mn mx st : Q) : Z := (Qfloor ((mx - mn) / st) + 1)%Z.

(** The interpolation formula of [operator()] between two stored pairs. *)
Definition interpolate (p q : Q * Q) (x : Q) : Q :=
  snd p + (snd q - snd p) * (x - fst p) / (fst q - fst p).

(** The interval index [floor((x - min_) / step_)]. *)
Definition index (mn st x : Q) : nat := Z.to_nat (Qfloor ((x - mn) / st)).


(** The objects a program can hold: those a constructor has just
    initialised (no sample, any policy, the other members indeterminate)
    and those left by a call of [create] that returned. *)
Inductive reachable : t -> Prop :=
| reachable_fresh (a b c : Q) (ob : OutOfBounds) : reachable (mk [] a b c ob)
| reachable_create (self : t) (mn mx st : Q) (f : Q -> Q) (b : bool) :
    reachable self ->
    returned (create self mn mx st f) = Ok b ->
    reachable (object (create self mn mx st f)).

(** A built table: one of these that is not [empty()]. *)
Definition built (self : t) : Prop := reachable self /\ empty self = false.

(** The objects on which no call of [create] has returned [true]: those a
    constructor has just initialised (no sample, any policy, the other
    members indeterminate) and those that calls of [create] returning
    [false] have been made on. *)
Inductive unbuilt : t -> Prop :=
| unbuilt_fresh (a b c : Q) (ob : OutOfBounds) : unbuilt (mk [] a b c ob)
| unbuilt_failed (self : t) (mn mx st : Q) (f : Q -> Q) :
    unbuilt self ->
    returned (create self mn mx st f) = Ok false ->
    unbuilt (object (create self mn mx st f)).

(** Two outcomes of a call that throw alike or return numbers related by
    [R]. *)
Definition result_rel (R : Q -> Q -> Prop) (a b : result Q) : Prop :=
  match a, b with
  | Ok x, Ok y => R x y
  | Raise e1, Raise e2 => e1 = e2
  | _, _ => False
  end.

End LookUpTableTerms.

(** ** mc_mujoco::JointValSet and the friction step *)

Module Friction.

(** [struct JointValSet].  The member [Z] of the source is [Z'] here, [Z]
    being the type of integers. *)
Record JointValSet : Type := mkJointValSet {
  value : Q;
  velocity : Q;
  torqueForce : Q;
  Ts : Q;
  Tc : Q;
  Tsc : Q;
  Tv : Q;
  wbrk : Q;
  Kf : Q;
  Bf : Q;
  e : Q;
  p_prev : Q;
  lambArg_th : Q;
  dt : Q;
  Z' : Q;
  den : Q;
  w_ast : Q;
  T_ast : Q;
  min : Q;
  max : Q;
  LUTstep : Q;
  firstTime : Q;
  dry : Q;
  dryFricTable : option LookUpTable.t   (* std::shared_ptr, None = null *)
}.

(** Assignments to the members the two functions write. *)
Definition set_torqueForce (s : JointValSet) (x : Q) : JointValSet :=
  mkJointValSet (value s) (velocity s) x (Ts s) (Tc s) (Tsc s) (Tv s)
    (wbrk s) (Kf s) (Bf s) (e s) (p_prev s) (lambArg_th s) (dt s) (Z' s)
    (den s) (w_ast s) (T_ast s) (min s) (max s) (LUTstep s) (firstTime s)
    (dry s) (dryFricTable s).

Definition set_e (s : JointValSet) (x : Q) : JointValSet :=
  mkJointValSet (value s) (velocity s) (torqueForce s) (Ts s) (Tc s) (Tsc s)
    (Tv s) (wbrk s) (Kf s) (Bf s) x (p_prev s) (lambArg_th s) (dt s) (Z' s)
    (den s) (w_ast s) (T_ast s) (min s) (max s) (LUTstep s) (firstTime s)
    (dry s) (dryFricTable s).

Definition set_p_prev (s : JointValSet) (x : Q) : JointValSet :=
  mkJointValSet (value s) (velocity s) (torqueForce s) (Ts s) (Tc s) (Tsc s)
    (Tv s) (wbrk s) (Kf s) (Bf s) (e s) x (lambArg_th s) (dt s) (Z' s)
    (den s) (w_ast s) (T_ast s) (min s) (max s) (LUTstep s) (firstTime s)
    (dry s) (dryFricTable s).

Definition set_w_ast (s : JointValSet) (x : Q) : JointValSet :=
  mkJointValSet (value s) (velocity s) (torqueForce s) (Ts s) (Tc s) (Tsc s)
    (Tv s) (wbrk s) (Kf s) (Bf s) (e s) (p_prev s) (lambArg_th s) (dt s)
    (Z' s) (den s) x (T_ast s) (min s) (max s) (LUTstep s) (firstTime s)
    (dry s) (dryFricTable s).

Definition set_T_ast (s : JointValSet) (x : Q) : JointValSet :=
  mkJointValSet (value s) (velocity s) (torqueForce s) (Ts s) (Tc s) (Tsc s)
    (Tv s) (wbrk s) (Kf s) (Bf s) (e s) (p_prev s) (lambArg_th s) (dt s)
    (Z' s) (den s) (w_ast s) x (min s) (max s) (LUTstep s) (firstTime s)
    (dry s) (dryFricTable s).

Definition set_firstTime (s : JointValSet) (x : Q) : JointValSet :=
  mkJointValSet (value s) (velocity s) (torqueForce s) (Ts s) (Tc s) (Tsc s)
    (Tv s) (wbrk s) (Kf s) (Bf s) (e s) (p_prev s) (lambArg_th s) (dt s)
    (Z' s) (den s) (w_ast s) (T_ast s) (min s) (max s) (LUTstep s) x
    (dry s) (dryFricTable s).

Definition set_dryFricTable (s : JointValSet) (p : option LookUpTable.t)
  : JointValSet :=
  mkJointValSet (value s) (velocity s) (torqueForce s) (Ts s) (Tc s) (Tsc s)
    (Tv s) (wbrk s) (Kf s) (Bf s) (e s) (p_prev s) (lambArg_th s) (dt s)
    (Z' s) (den s) (w_ast s) (T_ast s) (min s) (max s) (LUTstep s)
    (firstTime s) (dry s) p.

(** A [double] used as a condition ([firstTime] is declared [double]). *)
Definition truthy (d : Q) : bool := negb (Qeq_bool d 0).
(** [!d] stored back into a [double]. *)
Definition lnot (d : Q) : Q := if truthy d then 0 else 1.

(** The call of the table reached through the pointer [p.get()]. *)
Definition query (p : option LookUpTable.t) (x : Q) : result Q :=
  match p with
  | None => Raise undefined_behaviour
  | Some tbl => LookUpTable.evaluate tbl x
  end.

(** The three regimes of the [if / else if / else] of [setFrictionForces]. *)
Inductive regime : Type := Positive | Negative | Stick.

Definition select (s : JointValSet) : regime :=
  if Qlt_bool (Ts s) (T_ast s) then Positive
  else if Qlt_bool (T_ast s) (- Ts s) then Negative
  else Stick.

(** The value assigned to [Tf], [s] being the set after lines 17-22. *)
Definition friction_torque (s : JointValSet) : result Q :=
  match select s with
  | Positive =>
      y <- query (dryFricTable s) (w_ast s) ;;
      Ok (y + (Tc s + Tv s * w_ast s) / den s)
  | Negative =>
      y <- query (dryFricTable s) (- w_ast s) ;;
      Ok (- y + (- Tc s + Tv s * w_ast s) / den s)
  | Stick => Ok (T_ast s)
  end.

(** Lines 17-22: velocity estimate and predictor. *)
Definition predict (set : JointValSet) : JointValSet :=
  let w := if truthy (firstTime set) then 0
           else (value set - p_prev set) / dt set in
  let set := if truthy (firstTime set)
             then set_firstTime set (lnot (firstTime set)) else set in
  let set := set_w_ast set (w + Z' set * Kf set * e set) in
  set_T_ast set (w_ast set / Z' set).

(** [double setFrictionForces(JointValSet & set)]: the outcome and the set
    as the call leaves it (also when the table query throws). *)
Definition setFrictionForces (set : JointValSet) : result Q * JointValSet :=
  let set := predict set in
  match friction_torque set with
  | Raise ex => (Raise ex, set)
  | Ok Tf =>
      let set := set_e set (Z' set * (Bf set * e set + Tf * dt set)) in
      let set := set_p_prev set (value set) in
      let set := set_torqueForce set (torqueForce set - Tf) in
      (Ok (torqueForce set), set)
  end.

Section Table.

(** [exp] and [log] of <cmath> and [utl::LambertW<0>], which are not part
    of the sources at hand: opaque functions on numbers. *)
Variables (exp log LambertW0 : Q -> Q).
Variable indeterminate : Q.

(** The lambda [dry] of [createTable]. *)
Definition dry_curve (Tsc Tc wbrk Z den : Q) (w_ast : Q) : Q :=
  let lambArg := - Z / wbrk * Tsc / den * exp ((Z * Tc - w_ast) / (wbrk * den)) in
  - (wbrk / Z) * LambertW0 lambArg.

(** [void createTable(JointValSet & set)] *)
Definition createTable (set : JointValSet) : result JointValSet :=
  let dry := dry_curve (Tsc set) (Tc set) (wbrk set) (Z' set) (den set) in
  tbl <- LookUpTable.ctor_default_policy indeterminate
           (min set) (max set) (LUTstep set) dry ;;
  Ok (set_dryFricTable set (Some tbl)).

(** The default member initialisers of [JointValSet]; the members without
    one are the arguments. *)
Definition default_init (value velocity torqueForce e p_prev w_ast T_ast
                         firstTime : Q) : JointValSet :=
  let Ts := 2.5 in
  let Tc := 0.2 in
  let Tsc := Ts - Tc in
  let Tv := 4.5 in
  let wbrk := 0.04 in
  let Kf := 5000 in
  let Bf := 50 in
  let lambArg_th := - 0.001 in
  let dt := 0.001 in
  let Z := 1 / (Kf * dt + Bf) in
  let den := 1 + Z * Tv in
  let min := Z * Ts in
  let max := Z * Tc - wbrk * den * log (- wbrk / Z * den / Tsc * lambArg_th) in
  let LUTstep := 0.001 in
  mkJointValSet value velocity torqueForce Ts Tc Tsc Tv wbrk Kf Bf e p_prev
    lambArg_th dt Z den w_ast T_ast min max LUTstep firstTime 0.0 None.

End Table.

End Friction.

(** ** Vocabulary of the properties of the friction step *)

Module FrictionTerms.
Import Friction.

(** The velocity estimate of line 17. *)
Definition velocity_estimate (set : JointValSet) : Q :=
  if truthy (firstTime set) then 0 else (value set - p_prev set) / dt set.

(** A joint with the default constants, error [e0], flag [first] and table
    pointer [p]; the other members are 0 and [log] is not looked at. *)
Definition example_set (e0 first : Q) (p : option LookUpTable.t) : JointValSet :=
  set_dryFricTable (default_init (fun x => x) 0 0 0 e0 0 0 0 first) p.

(** The table of the squares on [[0, 1]], step one quarter, policy [Zero]. *)
Definition squares : LookUpTable.t :=
  LookUpTable.object
    (LookUpTable.create (LookUpTable.default_ctor 0) 0 1 (1 # 4) (fun x => x * x)).

(** The default joint with error [e0] and flag [first], its table bounds
    set to [[0, 1]] and its step to one quarter. *)
Definition coarse_set (e0 first : Q) : JointValSet :=
  let s := default_init (fun x => x) 0 0 0 e0 0 0 0 first in
  mkJointValSet (value s) (velocity s) (torqueForce s) (Ts s) (Tc s) (Tsc s)
    (Tv s) (wbrk s) (Kf s) (Bf s) (e s) (p_prev s) (lambArg_th s) (dt s)
    (Z' s) (den s) (w_ast s) (T_ast s) 0 1 (1 # 4) (firstTime s) (dry s)
    (dryFricTable s).

(** The default joint at rest with the table of the squares and a negative
    threshold [Ts = -5/2]. *)
Definition negative_threshold_set : JointValSet :=
  let s := example_set 0 1 (Some squares) in
  mkJointValSet (value s) (velocity s) (torqueForce s) (- (5 # 2)) (Tc s)
    (Tsc s) (Tv s) (wbrk s) (Kf s) (Bf s) (e s) (p_prev s) (lambArg_th s)
    (dt s) (Z' s) (den s) (w_ast s) (T_ast s) (min s) (max s) (LUTstep s)
    (firstTime s) (dry s) (dryFricTable s).

(** The joint moved the other way: positions and error negated, every
    other member kept. *)
Definition mirror (s : JointValSet) : JointValSet :=
  mkJointValSet (- value s) (velocity s) (torqueForce s) (Ts s) (Tc s) (Tsc s)
    (Tv s) (wbrk s) (Kf s) (Bf s) (- e s) (- p_prev s) (lambArg_th s) (dt s)
    (Z' s) (den s) (w_ast s) (T_ast s) (min s) (max s) (LUTstep s)
    (firstTime s) (dry s) (dryFricTable s).

End FrictionTerms.

(** ** The number type [double]

    IEEE 754 binary64 as the specification floats of the library: every
    operation is a function that computes, rounding to nearest even. *)

Module Binary64.

Definition F : Type := spec_float.
Definition prec : Z := 53.
Definition emax : Z := 1024.

Definition Fadd : F -> F -> F := SFadd prec emax.
Definition Fsub : F -> F -> F := SFsub prec emax.
Definition Fmul : F -> F -> F := SFmul prec emax.
Definition Fdiv : F -> F -> F := SFdiv prec emax.
Definition Fltb : F -> F -> bool := SFltb.
Definition Fleb : F -> F -> bool := SFleb.
Definition Feqb : F -> F -> bool := SFeqb.

(** Conversion of an integer ([static_cast<T>(i)], the literals 0 and 1). *)
Definition of_Z (z : Z) : F := binary_normalize prec emax z 0 false.

(** The double nearest to the fraction [n / d], for [n] and [d] below
    [2^53]: how a decimal literal such as 0.3 is read. *)
Definition dec (n d : Z) : F := Fdiv (of_Z n) (of_Z d).

(** [floor] of <cmath>. *)
Definition floor (x : F) : F :=
  match x with
  | S754_finite s m (Zneg p) =>
      match (cond_Zopp s (Zpos m) / Z.pow_pos 2 p)%Z with
      | Z0 => S754_zero s
      | z => of_Z z
      end
  | _ => x
  end.

(** The integer part, towards zero; none for infinities and NaN. *)
Definition truncate (x : F) : option Z :=
  match x with
  | S754_zero _ => Some 0%Z
  | S754_finite s m (Zneg p) => Some (cond_Zopp s (Zpos m / Z.pow_pos 2 p))%Z
  | S754_finite s m e => Some (cond_Zopp s (Zpos m * 2 ^ e))%Z
  | _ => None
  end.

(** [static_cast<size_t>(x)]: defined when the integer part is a value of
    [size_t]. *)
Definition cast_size_t (x : F) : option nat :=
  match truncate x with
  | Some z => to_size_t z
  | None => None
  end.

(** Classes of numbers. *)
Definition is_nan (x : F) : bool :=
  match x with S754_nan => true | _ => false end.
Definition is_finite (x : F) : bool :=
  match x with S754_zero _ | S754_finite _ _ _ => true | _ => false end.
Definition is_zero (x : F) : bool :=
  match x with S754_zero _ => true | _ => false end.

End Binary64.

(** ** utl::LookUpTable<double> *)

Module LookUpTable64.
Import Binary64.

(** The members [table_], [min_], [max_], [step_], [outbounds_]. *)
Record t : Type := mk {
  table_ : list (F * F);
  min_ : F;
  max_ : F;
  step_ : F;
  outbounds_ : LookUpTable.OutOfBounds
}.

(** [std::vector::resize], [v[i]] and [v[i] = p]. *)
Definition resize (n : nat) (v : list (F * F)) : list (F * F) :=
  firstn n v ++ repeat (of_Z 0, of_Z 0) (n - length v).

Definition at_ (v : list (F * F)) (i : nat) : F * F :=
  nth i v (of_Z 0, of_Z 0).

Fixpoint assign (v : list (F * F)) (i : nat) (p : F * F) : list (F * F) :=
  match v, i with
  | [], _ => []
  | _ :: v', O => p :: v'
  | q :: v', S i' => q :: assign v' i' p
  end.

Definition loop_state : Type := (list (F * F) * list F)%type.

(** One iteration of the loop of [create]. *)
Definition create_body (mn st : F) (f : F -> F) (s : loop_state) (i : nat)
  : loop_state :=
  let '(tbl, calls) := s in
  let tbl1 :=
    assign tbl i (Fadd mn (Fmul (of_Z (Z.of_nat i)) st), snd (at_ tbl i)) in
  let arg := fst (at_ tbl1 i) in
  let tbl2 := assign tbl1 i (fst (at_ tbl1 i), f arg) in
  (tbl2, calls ++ [arg]).

Record created : Type := mk_created {
  returned : result bool;
  object : t;
  calls : list F
}.

Section Members.

(** [std::vector<std::pair<double, double>>::max_size()], which the
    implementation of the library fixes; [resize] throws
    std::length_error above it.  Exhaustion of memory (std::bad_alloc) is
    not part of the model. *)
Variable max_size : Z.

(** [bool create(const T & min, const T & max, const T & step, MappingFunction f)] *)
Definition create (self : t) (mn mx st : F) (f : F -> F) : created :=
  if Fltb mx mn || Feqb st (of_Z 0) then mk_created (Ok false) self []
  else
    let self1 := mk (table_ self) mn mx st (outbounds_ self) in
    match cast_size_t (Fadd (floor (Fdiv (Fsub mx mn) st)) (of_Z 1)) with
    | None => mk_created (Raise undefined_behaviour) self1 []
    | Some tableSize =>
        if (max_size <? Z.of_nat tableSize)%Z
        then mk_created (Raise length_error) self1 []
        else
          let v := resize tableSize (table_ self) in
          let '(tbl, cs) :=
            fold_left (create_body mn st f) (seq 0 (length v)) (v, []) in
          mk_created (Ok true) (mk tbl mn mx st (outbounds_ self)) cs
    end.

End Members.

(** [bool empty()] *)
Definition empty (self : t) : bool :=
  match table_ self with [] => true | _ => false end.

(** [T operator()(const T & x)] *)
Definition evaluate (self : t) (x : F) : result F :=
  if empty self then Raise (out_of_range LookUpTable.what_uninitialized)
  else
    let tbl := table_ self in
    let maxIndex := (length tbl - 1)%nat in
    if Fltb x (min_ self) || Fltb (max_ self) x then
      match outbounds_ self with
      | LookUpTable.Zero => Ok (of_Z 0)
      | LookUpTable.BoundValue =>
          if Fltb x (min_ self) then Ok (snd (at_ tbl 0))
          else Ok (snd (at_ tbl maxIndex))
      | LookUpTable.Fail => Raise (out_of_range LookUpTable.what_out_of_bound)
      end
    else
      match cast_size_t (floor (Fdiv (Fsub x (min_ self)) (step_ self))) with
      | None => Raise undefined_behaviour
      | Some k =>
          let i := Nat.min k maxIndex in
          if (i <? maxIndex)%nat then
            Ok (Fadd (snd (at_ tbl i))
                  (Fdiv (Fmul (Fsub (snd (at_ tbl (i + 1))) (snd (at_ tbl i)))
                              (Fsub x (fst (at_ tbl i))))
                        (Fsub (fst (at_ tbl (i + 1))) (fst (at_ tbl i)))))
          else Ok (snd (at_ tbl i))
      end.

End LookUpTable64.

(** ** Vocabulary of the properties of the table of doubles *)

Module LookUpTable64Terms.
Import Binary64 LookUpTable64.

(** The abscissa and the pair written by iteration [i] of [create]. *)
Definition sample_x (mn st : F) (i : nat) : F :=
  Fadd mn (Fmul (of_Z (Z.of_nat i)) st).
Definition sample (mn st : F) (f : F -> F) (i : nat) : F * F :=
  (sample_x mn st i, f (sample_x mn st i)).

(** The number of samples as [create] computes it,
    [floor((max - min) / step) + 1]. *)
Definition tableSize (mn mx st : F) : F :=
  Fadd (floor (Fdiv (Fsub mx mn) st)) (of_Z 1).

(** The interval index as [operator()] computes it. *)
Definition index (mn st x : F) : option nat :=
  cast_size_t (floor (Fdiv (Fsub x mn) st)).

(** The interpolation formula of [operator()] between two stored pairs. *)
Definition interpolate (p q : F * F) (x : F) : F :=
  Fadd (snd p) (Fdiv (Fmul (Fsub (snd q) (snd p)) (Fsub x (fst p)))
                     (Fsub (fst q) (fst p))).

(** [max_size()] of libstdc++ on a 64-bit target, [PTRDIFF_MAX / 16]. *)
Definition max_size_lp64 : Z := ((2 ^ 63 - 1) / 16)%Z.

(** The cube, computed as [x * x * x]. *)
Definition cube (x : F) : F := Fmul (Fmul x x) x.

(** Tables of the examples, from a fresh object of policy [Zero]. *)
Definition fresh : t := mk [] (of_Z 0) (of_Z 0) (of_Z 0) LookUpTable.Zero.
Definition cubes : created :=
  create max_size_lp64 fresh (dec 3 10) (dec 12 10) (dec 89 100) cube.
Definition squares64 : created :=
  create max_size_lp64 fresh (of_Z 0) (of_Z 1) (dec 1 4) (fun x => Fmul x x).

(** A sample point [x_i] that the double arithmetic handles exactly: it
    lies in [[min, max]], the interval index computed for it is [i],
    [f(x_i)] is a number and, unless it is the last one, [x_i] is finite,
    [f(x_{i+1}) - f(x_i)] is finite and [x_{i+1} - x_i] is neither zero
    nor NaN. *)
Definition exact_knot (mn mx st : F) (f : F -> F) (N i : nat) : Prop :=
  Fleb mn (sample_x mn st i) = true /\
  Fleb (sample_x mn st i) mx = true /\
  index mn st (sample_x mn st i) = Some i /\
  is_nan (f (sample_x mn st i)) = false /\
  ((i < N - 1)%nat ->
   is_finite (sample_x mn st i) = true /\
   is_finite (Fsub (f (sample_x mn st (i + 1))) (f (sample_x mn st i))) = true /\
   is_nan (Fsub (sample_x mn st (i + 1)) (sample_x mn st i)) = false /\
   is_zero (Fsub (sample_x mn st (i + 1)) (sample_x mn st i)) = false).

(** [x * x + 1/3] and the step from 0 to 3 at 1. *)
Definition parabola (x : F) : F := Fadd (Fmul x x) (dec 1 3).

Definition parabolas : created :=
  create max_size_lp64 fresh (dec 7 10) (dec 27 10) (dec 44 100) parabola.
Definition coincident : created :=
  create max_size_lp64 fresh (of_Z (10 ^ 17)) (of_Z (10 ^ 17 + 32)) (of_Z 1)
         (fun x => x).

End LookUpTable64Terms.

(** * Properties *)

(** ** Tests and conversions *)

Lemma Qlt_bool_iff (a b : Q) : Qlt_bool a b = true <-> a < b.
Proof.
  unfold Qlt_bool. rewrite negb_true_iff.
  destruct (Qle_bool b a) eqn:E.
  - apply Qle_bool_iff in E. split; [discriminate | intros H; lra].
  - split; [intros _ | reflexivity].
    destruct (Qlt_le_dec a b) as [H | H]; [exact H |].
    apply Qle_bool_iff in H. congruence.
Qed.

Lemma Qlt_bool_false_iff (a b : Q) : Qlt_bool a b = false <-> b <= a.
Proof.
  destruct (Qlt_bool a b) eqn:E.
  - apply Qlt_bool_iff in E. split; [discriminate | intros H; lra].
  - split; [intros _ | reflexivity].
    destruct (Qlt_le_dec a b) as [H | H]; [| exact H].
    apply Qlt_bool_iff in H. congruence.
Qed.

Lemma Qeq_bool_false_iff (a b : Q) : Qeq_bool a b = false <-> ~ a == b.
Proof.
  split; [apply Qeq_bool_neq |].
  intros H. destruct (Qeq_bool a b) eqn:E; [| reflexivity].
  apply Qeq_bool_iff in E. contradiction.
Qed.

Lemma to_size_t_Some (z : Z) (n : nat) :
  to_size_t z = Some n <-> (0 <= z <= SIZE_MAX)%Z /\ n = Z.to_nat z.
Proof.
  unfold to_size_t.
  destruct ((0 <=? z)%Z && (z <=? SIZE_MAX)%Z) eqn:E.
  - apply andb_true_iff in E. destruct E as [E1 E2].
    apply Z.leb_le in E1, E2.
    split; [intros [= <-]; auto | intros [_ ->]; reflexivity].
  - apply andb_false_iff in E.
    split; [discriminate |]. intros [[H1 H2] _].
    destruct E as [E | E]; apply Z.leb_gt in E; lia.
Qed.

Lemma to_size_t_None (z : Z) :
  to_size_t z = None <-> (z < 0 \/ SIZE_MAX < z)%Z.
Proof.
  unfold to_size_t.
  destruct ((0 <=? z)%Z && (z <=? SIZE_MAX)%Z) eqn:E.
  - apply andb_true_iff in E. destruct E as [E1 E2].
    apply Z.leb_le in E1, E2. split; [discriminate | lia].
  - apply andb_false_iff in E. split; [intros _ | reflexivity].
    destruct E as [E | E]; apply Z.leb_gt in E; lia.
Qed.

(** ** The vector operations *)

Module LookUpTableFacts.
Import LookUpTable LookUpTableTerms.

Lemma length_assign v i p : length (assign v i p) = length v.
Proof.
  revert i. induction v as [| q v IH]; intros [| i]; simpl; auto.
Qed.

Lemma at_assign_same v i p : (i < length v)%nat -> at_ (assign v i p) i = p.
Proof.
  unfold at_. revert i.
  induction v as [| q v IH]; intros [| i] H; simpl in *; try lia; auto.
  apply IH. lia.
Qed.

Lemma assign_assign v i p q : assign (assign v i p) i q = assign v i q.
Proof.
  revert i. induction v as [| r v IH]; intros [| i]; simpl; auto.
  now rewrite IH.
Qed.

Lemma firstn_assign v i p :
  (i < length v)%nat -> firstn (S i) (assign v i p) = firstn i v ++ [p].
Proof.
  revert i. induction v as [| q v IH]; intros [| i] H; simpl in *; try lia; auto.
  f_equal. apply IH. lia.
Qed.

Lemma length_resize n v : length (resize n v) = n.
Proof.
  unfold resize. rewrite length_app, length_firstn, repeat_length. lia.
Qed.

Lemma create_body_spec mn st f tbl cs i :
  (i < length tbl)%nat ->
  create_body mn st f (tbl, cs) i
  = (assign tbl i (sample mn st f i), cs ++ [sample_x mn st i]).
Proof.
  intros H. unfold create_body.
  rewrite at_assign_same by exact H. simpl fst.
  rewrite assign_assign. reflexivity.
Qed.

(** The loop, from any index [a] on: the first [a] entries are kept, the
    others are the samples, and [f] is called once for each, in order. *)
Lemma create_loop mn st f k :
  forall a v cs, length v = (a + k)%nat ->
  fold_left (create_body mn st f) (seq a k) (v, cs)
  = (firstn a v ++ map (sample mn st f) (seq a k),
     cs ++ map (sample_x mn st) (seq a k)).
Proof.
  induction k as [| k IH]; intros a v cs H; cbn [seq fold_left map].
  - rewrite !app_nil_r, firstn_all2 by lia. reflexivity.
  - rewrite create_body_spec by lia.
    rewrite IH by (rewrite length_assign; lia).
    rewrite firstn_assign by lia.
    rewrite <- !app_assoc. reflexivity.
Qed.

Lemma at_samples mn st f n i :
  (i < n)%nat -> at_ (map (sample mn st f) (seq 0 n)) i = sample mn st f i.
Proof.
  intros H. unfold at_.
  rewrite nth_indep with (d' := sample mn st f 0%nat)
    by (rewrite length_map, length_seq; exact H).
  rewrite map_nth, seq_nth by exact H. reflexivity.
Qed.

(** Every call of [create] that returns [true] leaves the samples in the
    table, whatever the table held before. *)
Lemma create_true self mn mx st f :
  returned (create self mn mx st f) = Ok true ->
  let n := Z.to_nat (tableSize mn mx st) in
  mn <= mx /\ ~ st == 0 /\ (0 <= tableSize mn mx st <= SIZE_MAX)%Z /\
  object (create self mn mx st f)
  = mk (map (sample mn st f) (seq 0 n)) mn mx st (outbounds_ self) /\
  calls (create self mn mx st f) = map (sample_x mn st) (seq 0 n).
Proof.
  unfold create, tableSize.
  destruct (Qlt_bool mx mn || Qeq_bool st 0) eqn:G; [discriminate |].
  apply orb_false_iff in G. destruct G as [G1 G2].
  apply Qlt_bool_false_iff in G1. apply Qeq_bool_false_iff in G2.
  destruct (to_size_t (Qfloor ((mx - mn) / st) + 1)) as [n |] eqn:E;
    [| discriminate].
  apply to_size_t_Some in E. destruct E as [E ->].
  rewrite length_resize.
  rewrite create_loop by (rewrite length_resize; reflexivity).
  cbn [returned object calls app]. intros _.
  split; [exact G1 |]. split; [exact G2 |]. split; [exact E |].
  split; reflexivity.
Qed.

End LookUpTableFacts.

(** ** Arithmetic of the interval index *)

Section IntervalIndex.

Variables (st : Q).
Hypothesis st_pos : 0 < st.

Lemma div_mul_cancel (x : Q) : x / st * st == x.
Proof. field. lra. Qed.

Lemma floor_div_lower (x : Q) : inject_Z (Qfloor (x / st)) * st <= x.
Proof.
  rewrite <- (div_mul_cancel x) at 2.
  apply Qmult_le_compat_r; [apply Qfloor_le | lra].
Qed.


Lemma floor_div_ge_iff (x : Q) (j : Z) :
  (j <= Qfloor (x / st))%Z <-> inject_Z j * st <= x.
Proof.
  split; intros H.
  - apply Qle_trans with (inject_Z (Qfloor (x / st)) * st);
      [| apply floor_div_lower].
    apply Qmult_le_compat_r; [| lra]. rewrite <- Zle_Qle. exact H.
  - rewrite <- (Qfloor_Z j). apply Qfloor_resp_le.
    apply Qle_shift_div_l; assumption.
Qed.

Lemma floor_div_nonneg (x : Q) : 0 <= x -> (0 <= Qfloor (x / st))%Z.
Proof.
  intros H. apply floor_div_ge_iff.
  change (inject_Z 0) with 0. lra.
Qed.

Lemma floor_div_mono (x y : Q) :
  x <= y -> (Qfloor (x / st) <= Qfloor (y / st))%Z.
Proof.
  intros H. apply Qfloor_resp_le.
  apply Qle_shift_div_l; [exact st_pos |]. rewrite div_mul_cancel. exact H.
Qed.

End IntervalIndex.

(** ** Queries on a table that [create] has filled *)

Module LookUpTableSpec.
Import LookUpTable LookUpTableTerms LookUpTableFacts.

Lemma empty_false (self : t) :
  (0 < length (table_ self))%nat -> empty self = false.
Proof. unfold empty. destruct (table_ self); simpl; [lia | reflexivity]. Qed.

Lemma empty_true (self : t) : empty self = true <-> table_ self = [].
Proof. unfold empty. destruct (table_ self); split; congruence. Qed.

Lemma tableSize_pos mn mx st :
  0 < st -> mn <= mx -> (1 <= tableSize mn mx st)%Z.
Proof.
  intros Hst H. unfold tableSize.
  assert (0 <= Qfloor ((mx - mn) / st))%Z
    by (apply floor_div_nonneg; [exact Hst | lra]).
  lia.
Qed.

Lemma index_le_last mn mx st x :
  0 < st -> mn <= x -> x <= mx ->
  (0 <= Qfloor ((x - mn) / st) <= tableSize mn mx st - 1)%Z.
Proof.
  intros Hst H1 H2. unfold tableSize. split.
  - apply floor_div_nonneg; [exact Hst | lra].
  - assert (Qfloor ((x - mn) / st) <= Qfloor ((mx - mn) / st))%Z
      by (apply floor_div_mono; [exact Hst | lra]).
    lia.
Qed.



(** What [operator()] computes inside the domain of a filled table. *)
Lemma evaluate_filled mn mx st f ob x :
  0 < st -> (tableSize mn mx st <= SIZE_MAX)%Z -> mn <= x -> x <= mx ->
  let n := Z.to_nat (tableSize mn mx st) in
  let k := index mn st x in
  let self := mk (map (sample mn st f) (seq 0 n)) mn mx st ob in
  (1 <= n)%nat /\ (k <= n - 1)%nat /\
  evaluate self x
  = if (k <? n - 1)%nat
    then Ok (interpolate (sample mn st f k) (sample mn st f (k + 1)) x)
    else Ok (f (sample_x mn st (n - 1))).
Proof.
  intros Hst Hmax H1 H2 n k self.
  pose proof (tableSize_pos mn mx st Hst ltac:(lra)) as Hn.
  pose proof (index_le_last mn mx st x Hst H1 H2) as Hk.
  assert (Hn1 : (1 <= n)%nat) by (unfold n; lia).
  assert (Hk1 : (k <= n - 1)%nat) by (unfold k, index, n; lia).
  split; [exact Hn1 |]. split; [exact Hk1 |].
  subst self. unfold evaluate.
  rewrite empty_false
    by (cbn [table_]; rewrite length_map, length_seq; lia).
  cbn [table_ min_ max_ step_ outbounds_].
  rewrite length_map, length_seq.
  replace (Qlt_bool x mn) with false
    by (symmetry; apply Qlt_bool_false_iff; exact H1).
  replace (Qlt_bool mx x) with false
    by (symmetry; apply Qlt_bool_false_iff; exact H2).
  cbn [orb].
  assert (E : to_size_t (Qfloor ((x - mn) / st)) = Some k)
    by (apply to_size_t_Some; split; [lia | reflexivity]).
  rewrite E. rewrite Nat.min_l by exact Hk1.
  destruct (k <? n - 1)%nat eqn:L.
  - apply Nat.ltb_lt in L.
    rewrite !at_samples by lia. reflexivity.
  - apply Nat.ltb_ge in L.
    rewrite at_samples by lia.
    replace k with (n - 1)%nat by lia. reflexivity.
Qed.

(** With a negative step the table holds a sample only when the domain is
    the single point [min == max]. *)
Lemma negative_step_single mn mx st x :
  st < 0 -> mn <= mx -> (1 <= tableSize mn mx st)%Z -> mn <= x -> x <= mx ->
  tableSize mn mx st = 1%Z /\ Qfloor ((x - mn) / st) = 0%Z.
Proof.
  intros Hst Hle Hn H1 H2. unfold tableSize in *.
  assert (Hq : 0 <= (mx - mn) / st).
  { apply Qle_trans with (inject_Z (Qfloor ((mx - mn) / st)));
      [| apply Qfloor_le].
    change 0 with (inject_Z 0). rewrite <- Zle_Qle. lia. }
  assert (Hd : (mx - mn) / st * st == mx - mn) by (field; lra).
  assert (Heq : mx == mn) by nra.
  assert (E1 : (mx - mn) / st == 0) by (rewrite Heq; field; lra).
  assert (E2 : (x - mn) / st == 0).
  { assert (x == mn) as -> by lra. field. lra. }
  rewrite E1, E2. change 0 with (inject_Z 0). rewrite Qfloor_Z.
  split; reflexivity.
Qed.

(** What [operator()] returns inside the domain after a call of [create]
    that returned [true] and stored at least one sample. *)
Lemma evaluate_created self mn mx st f x :
  returned (create self mn mx st f) = Ok true ->
  table_ (object (create self mn mx st f)) <> [] ->
  mn <= x -> x <= mx ->
  let n := Z.to_nat (tableSize mn mx st) in
  let k := index mn st x in
  (1 <= n)%nat /\ (k <= n - 1)%nat /\
  evaluate (object (create self mn mx st f)) x
  = if (k <? n - 1)%nat
    then Ok (interpolate (sample mn st f k) (sample mn st f (k + 1)) x)
    else Ok (f (sample_x mn st (n - 1))).
Proof.
  intros Hc Hne H1 H2 n k.
  destruct (create_true _ _ _ _ _ Hc) as (Hle & Hst & Hsz & Hobj & _).
  rewrite Hobj in *. cbn [table_] in Hne. fold n in Hne.
  assert (Hn : (1 <= n)%nat).
  { destruct n; [exfalso; apply Hne; reflexivity | lia]. }
  destruct (Qlt_le_dec 0 st) as [Hpos | Hneg].
  - apply evaluate_filled; auto; lia.
  - assert (Hlt : st < 0).
    { destruct (Qlt_le_dec st 0) as [L | L]; [exact L |].
      exfalso. apply Hst. lra. }
    destruct (negative_step_single mn mx st x Hlt Hle ltac:(unfold n in Hn; lia)
                H1 H2) as [E1 E2].
    assert (En : n = 1%nat) by (unfold n; rewrite E1; reflexivity).
    assert (Ek : k = 0%nat) by (unfold k, index; rewrite E2; reflexivity).
    rewrite En, Ek. split; [lia |]. split; [lia |].
    rewrite E1. change (Z.to_nat 1) with 1%nat.
    unfold evaluate. cbn [table_ min_ max_ step_ outbounds_ map seq empty length].
    replace (Qlt_bool x mn) with false
      by (symmetry; apply Qlt_bool_false_iff; exact H1).
    replace (Qlt_bool mx x) with false
      by (symmetry; apply Qlt_bool_false_iff; exact H2).
    cbn [orb]. rewrite E2. reflexivity.
Qed.

(** ** create *)





Lemma create_false_iff self mn mx st f :
  returned (create self mn mx st f) = Ok false <-> (mx < mn \/ st == 0).
Proof.
  unfold create.
  destruct (Qlt_bool mx mn || Qeq_bool st 0) eqn:G.
  - apply orb_true_iff in G.
    rewrite Qlt_bool_iff, Qeq_bool_iff in G. tauto.
  - apply orb_false_iff in G. destruct G as [G1 G2].
    apply Qlt_bool_false_iff in G1. apply Qeq_bool_false_iff in G2.
    split.
    + destruct (to_size_t (Qfloor ((mx - mn) / st) + 1)); [| discriminate].
      destruct (fold_left _ _ _). discriminate.
    + intros [H | H]; [lra | contradiction].
Qed.

Lemma create_false_unchanged self mn mx st f :
  returned (create self mn mx st f) = Ok false ->
  object (create self mn mx st f) = self /\ calls (create self mn mx st f) = [].
Proof.
  unfold create.
  destruct (Qlt_bool mx mn || Qeq_bool st 0); [intros _; split; reflexivity |].
  destruct (to_size_t (Qfloor ((mx - mn) / st) + 1)); [| discriminate].
  destruct (fold_left _ _ _). discriminate.
Qed.

Lemma create_succeeds self mn mx st f :
  mn <= mx -> 0 < st -> (tableSize mn mx st <= SIZE_MAX)%Z ->
  returned (create self mn mx st f) = Ok true.
Proof.
  intros Hle Hst Hsz. unfold create.
  replace (Qlt_bool mx mn) with false
    by (symmetry; apply Qlt_bool_false_iff; exact Hle).
  replace (Qeq_bool st 0) with false
    by (symmetry; apply Qeq_bool_false_iff; lra).
  cbn [orb]. fold (tableSize mn mx st).
  pose proof (tableSize_pos mn mx st Hst Hle).
  destruct (to_size_t (tableSize mn mx st)) as [n |] eqn:E.
  - destruct (fold_left _ _ _). reflexivity.
  - apply to_size_t_None in E. lia.
Qed.

(** ** operator(), inside the domain *)

(** After a [create] that returned [true] the members are the arguments. *)
Lemma create_true_members self mn mx st f :
  returned (create self mn mx st f) = Ok true ->
  min_ (object (create self mn mx st f)) = mn /\
  max_ (object (create self mn mx st f)) = mx /\
  step_ (object (create self mn mx st f)) = st /\
  length (table_ (object (create self mn mx st f)))
  = Z.to_nat (tableSize mn mx st).
Proof.
  intros Hc. destruct (create_true _ _ _ _ _ Hc) as (_ & _ & _ & -> & _).
  cbn [min_ max_ step_ table_]. rewrite length_map, length_seq. tauto.
Qed.

(** ** operator(), outside the domain *)

Lemma create_outbounds self mn mx st f :
  outbounds_ (object (create self mn mx st f)) = outbounds_ self.
Proof.
  unfold create.
  destruct (Qlt_bool mx mn || Qeq_bool st 0); [reflexivity |].
  destruct (to_size_t (Qfloor ((mx - mn) / st) + 1)); [| reflexivity].
  destruct (fold_left _ _ _). reflexivity.
Qed.

Lemma evaluate_outside_members (self : t) (x : Q) :
  table_ self <> [] -> x < min_ self \/ max_ self < x ->
  evaluate self x
  = match outbounds_ self with
    | Zero => Ok 0
    | BoundValue =>
        if Qlt_bool x (min_ self) then Ok (snd (at_ (table_ self) 0))
        else Ok (snd (at_ (table_ self) (length (table_ self) - 1)))
    | Fail => Raise (out_of_range what_out_of_bound)
    end.
Proof.
  intros Hne Hx. unfold evaluate.
  destruct (empty self) eqn:E; [apply empty_true in E; contradiction |].
  replace (Qlt_bool x (min_ self) || Qlt_bool (max_ self) x) with true;
    [reflexivity |].
  symmetry. apply orb_true_iff. rewrite !Qlt_bool_iff. exact Hx.
Qed.

Lemma ctor_outbounds q mn mx st f ob self :
  ctor q mn mx st f ob = Ok self -> outbounds_ self = ob.
Proof.
  unfold ctor, bind.
  destruct (returned (create _ mn mx st f)); [| discriminate].
  intros [= <-]. apply create_outbounds.
Qed.

Lemma reachable_domain (self : t) :
  reachable self -> table_ self <> [] -> min_ self <= max_ self.
Proof.
  induction 1 as [| self mn mx st f b _ IH Hc]; [intros H; now elim H |].
  destruct b.
  - destruct (create_true_members _ _ _ _ _ Hc) as (-> & -> & _).
    destruct (create_true _ _ _ _ _ Hc) as (Hle & _). intros _. exact Hle.
  - destruct (create_false_unchanged _ _ _ _ _ Hc) as [-> _]. exact IH.
Qed.

(** C3: on every built table, for [x < min] or [x > max]: policy [Zero]
    returns 0; policy [BoundValue] returns the first stored value when
    [x < min] and the last one when [x > max]; policy [Fail] throws
    std::out_of_range.  A table constructed without a policy, by either
    constructor, has policy [Zero]. *)
Theorem out_of_bounds_policy :
  (forall self x,
     built self ->
     x < min_ self \/ max_ self < x ->
     (outbounds_ self = Zero -> evaluate self x = Ok 0) /\
     (outbounds_ self = BoundValue ->
      (x < min_ self -> evaluate self x = Ok (snd (at_ (table_ self) 0))) /\
      (max_ self < x ->
       evaluate self x
       = Ok (snd (at_ (table_ self) (length (table_ self) - 1))))) /\
     (outbounds_ self = Fail ->
      evaluate self x = Raise (out_of_range what_out_of_bound))) /\
  (forall q, outbounds_ (default_ctor q) = Zero) /\
  (forall q mn mx st f self,
     ctor_default_policy q mn mx st f = Ok self -> outbounds_ self = Zero).
Proof.
  split; [| split; [reflexivity | ]].
  - intros self x [Hr He] Hx.
    assert (Hne : table_ self <> []).
    { intros E. apply empty_true in E. congruence. }
    pose proof (reachable_domain self Hr Hne) as Hle.
    pose proof (evaluate_outside_members self x Hne Hx) as Hev.
    split; [intros P; rewrite P in Hev; exact Hev |].
    split; [| intros P; rewrite P in Hev; exact Hev].
    intros P. rewrite P in Hev. split; intros Hlt.
    + replace (Qlt_bool x (min_ self)) with true in Hev
        by (symmetry; apply Qlt_bool_iff; exact Hlt).
      exact Hev.
    + replace (Qlt_bool x (min_ self)) with false in Hev
        by (symmetry; apply Qlt_bool_false_iff; lra).
      exact Hev.
  - intros q mn mx st f self. apply ctor_outbounds.
Qed.

(** The squares on [[0, 1]] with policy [BoundValue], queried at 101. *)
Lemma out_of_bounds_policy_witness :
  exists v,
    evaluate (object (create (mk [] 0 0 0 BoundValue) 0 1 (1 # 4)
                             (fun x => x * x))) (101 # 1) = Ok v /\
    v == 1.
Proof.
  destruct out_of_bounds_policy as [H _].
  specialize (H (object (create (mk [] 0 0 0 BoundValue) 0 1 (1 # 4)
                                (fun x => x * x))) (101 # 1)).
  destruct H as (_ & H & _).
  - split; [| reflexivity].
    apply reachable_create with (b := true);
      [apply reachable_fresh | reflexivity].
  - right. reflexivity.
  - destruct (H eq_refl) as [_ H2].
    eexists. split; [apply H2; reflexivity |].
    vm_compute. reflexivity.
Defined.

(** ** operator(), before any successful create *)

Lemma unbuilt_empty (self : t) : unbuilt self -> table_ self = [].
Proof.
  induction 1 as [| self mn mx st f _ IH Hc]; [reflexivity |].
  destruct (create_false_unchanged _ _ _ _ _ Hc) as [-> _]. exact IH.
Qed.

Lemma evaluate_empty (self : t) (x : Q) :
  table_ self = [] -> evaluate self x = Raise (out_of_range what_uninitialized).
Proof.
  intros H. unfold evaluate.
  replace (empty self) with true by (symmetry; apply empty_true; exact H).
  reflexivity.
Qed.

(** C4: the call operator on a table on which no [create] has succeeded
    throws std::out_of_range with the message of the uninitialised table,
    for every [x] and every policy; such a table is empty, and so does
    every empty table. *)
Theorem evaluate_uninitialized (self : t) (x : Q) :
  unbuilt self \/ empty self = true ->
  evaluate self x = Raise (out_of_range what_uninitialized) /\
  empty self = true.
Proof.
  intros H.
  assert (E : table_ self = []).
  { destruct H as [H | H]; [apply unbuilt_empty; exact H |].
    apply empty_true; exact H. }
  split; [apply evaluate_empty; exact E | apply empty_true; exact E].
Qed.

(** A table with policy [Fail] on which [create(5, 1, 0.1, f)] failed. *)
Lemma evaluate_uninitialized_witness :
  evaluate (object (create (mk [] 0 0 0 Fail) 5 1 (1 # 10) (fun x => x))) 3
  = Raise (out_of_range what_uninitialized).
Proof.
  apply (evaluate_uninitialized
           (object (create (mk [] 0 0 0 Fail) 5 1 (1 # 10) (fun x => x))) 3).
  left. apply unbuilt_failed; [apply unbuilt_fresh | reflexivity].
Defined.

(** ** operator() at the sample points *)


Lemma index_sample mn st i : 0 < st -> index mn st (sample_x mn st i) = i.
Proof.
  intros Hst. unfold index, sample_x.
  assert (E : (mn + inject_Z (Z.of_nat i) * st - mn) / st == inject_Z (Z.of_nat i))
    by (field; lra).
  rewrite E, Qfloor_Z. apply Nat2Z.id.
Qed.

Lemma index_min mn st : 0 < st -> index mn st mn = 0%nat.
Proof.
  intros Hst. unfold index.
  assert (E : (mn - mn) / st == inject_Z 0)
    by (change (inject_Z 0) with 0; field; lra).
  rewrite E, Qfloor_Z. reflexivity.
Qed.

Lemma interpolate_at_left p q x : x == fst p -> interpolate p q x == snd p.
Proof. intros E. unfold interpolate, Qdiv. rewrite E. ring. Qed.

Lemma created_nonempty self mn mx st f :
  0 < st -> returned (create self mn mx st f) = Ok true ->
  table_ (object (create self mn mx st f)) <> [] /\
  (1 <= Z.to_nat (tableSize mn mx st))%nat.
Proof.
  intros Hst Hc.
  destruct (create_true _ _ _ _ _ Hc) as (Hle & _ & _ & _).
  destruct (create_true_members _ _ _ _ _ Hc) as (_ & _ & _ & Hlen).
  pose proof (tableSize_pos mn mx st Hst Hle).
  split; [| lia].
  intros E. rewrite E in Hlen. simpl in Hlen. lia.
Qed.

(** ** Monotonicity *)

Section Monotone.

Variables (mn mx st : Q) (f : Q -> Q).
Hypothesis st_pos : 0 < st.
Hypothesis domain : mn <= mx.
Hypothesis f_mono : forall a b, mn <= a -> a <= b -> b <= mx -> f a <= f b.

Local Abbreviation n := (Z.to_nat (tableSize mn mx st)).








End Monotone.


End LookUpTableSpec.

(** ** The friction step *)

Module FrictionSpec.
Import Friction FrictionTerms.

(** Reads of members through the assignments written as constructors. *)
Ltac members :=
  unfold set_torqueForce, set_e, set_p_prev, set_w_ast, set_T_ast,
    set_firstTime, set_dryFricTable;
  cbn [value velocity torqueForce Ts Tc Tsc Tv wbrk Kf Bf e p_prev lambArg_th
       dt Z' den w_ast T_ast min max LUTstep firstTime dry dryFricTable].

Lemma truthy_lnot d : truthy d = true -> truthy (lnot d) = false.
Proof. unfold lnot. intros ->. reflexivity. Qed.

(** The members [predict] writes and those it keeps. *)
Lemma predict_members (set : JointValSet) :
  w_ast (predict set) = velocity_estimate set + Z' set * Kf set * e set /\
  T_ast (predict set) = w_ast (predict set) / Z' set /\
  truthy (firstTime (predict set)) = false /\
  value (predict set) = value set /\
  torqueForce (predict set) = torqueForce set /\
  Ts (predict set) = Ts set /\ Tc (predict set) = Tc set /\
  Tv (predict set) = Tv set /\ den (predict set) = den set /\
  Z' (predict set) = Z' set /\ Bf (predict set) = Bf set /\
  dt (predict set) = dt set /\ e (predict set) = e set /\
  p_prev (predict set) = p_prev set /\
  dryFricTable (predict set) = dryFricTable set.
Proof.
  unfold predict, velocity_estimate.
  destruct (truthy (firstTime set)) eqn:F; cbn;
    repeat split; try reflexivity.
  - apply truthy_lnot. exact F.
  - exact F.
Qed.

(** The outcome and the final set, from the torque [friction_torque]
    selects. *)
Lemma setFrictionForces_Ok (set : JointValSet) (Tf : Q) :
  friction_torque (predict set) = Ok Tf ->
  setFrictionForces set
  = (Ok (torqueForce set - Tf),
     set_torqueForce
       (set_p_prev
          (set_e (predict set) (Z' set * (Bf set * e set + Tf * dt set)))
          (value set))
       (torqueForce set - Tf)).
Proof.
  intros H. unfold setFrictionForces. rewrite H.
  destruct (predict_members set)
    as (_ & _ & _ & Ev & Etq & _ & _ & _ & _ & EZ & EBf & Edt & Ee & _ & _).
  members. rewrite Ev, Etq, EZ, EBf, Edt, Ee. reflexivity.
Qed.

Lemma setFrictionForces_Raise (set : JointValSet) (ex : exn) :
  friction_torque (predict set) = Raise ex ->
  setFrictionForces set = (Raise ex, predict set).
Proof. intros H. unfold setFrictionForces. rewrite H. reflexivity. Qed.

Lemma setFrictionForces_fst (set : JointValSet) :
  fst (setFrictionForces set)
  = (Tf <- friction_torque (predict set) ;; Ok (torqueForce set - Tf)).
Proof.
  destruct (friction_torque (predict set)) as [Tf | ex] eqn:H.
  - rewrite (setFrictionForces_Ok set Tf H). reflexivity.
  - rewrite (setFrictionForces_Raise set ex H). reflexivity.
Qed.

Lemma select_cases (s : JointValSet) :
  (Ts s < T_ast s /\ select s = Positive) \/
  (~ Ts s < T_ast s /\ T_ast s < - Ts s /\ select s = Negative) \/
  (- Ts s <= T_ast s /\ T_ast s <= Ts s /\ select s = Stick).
Proof.
  unfold select.
  destruct (Qlt_bool (Ts s) (T_ast s)) eqn:P.
  - left. apply Qlt_bool_iff in P. auto.
  - apply Qlt_bool_false_iff in P.
    destruct (Qlt_bool (T_ast s) (- Ts s)) eqn:N.
    + right; left. apply Qlt_bool_iff in N. repeat split; auto. lra.
    + right; right. apply Qlt_bool_false_iff in N. auto.
Qed.

(** The three branches, the table being reached through [query]. *)
Lemma friction_torque_cases (set : JointValSet) :
  (Ts set < T_ast (predict set) ->
   friction_torque (predict set)
   = (y <- query (dryFricTable set) (w_ast (predict set)) ;;
      Ok (y + (Tc set + Tv set * w_ast (predict set)) / den set))) /\
  (~ Ts set < T_ast (predict set) -> T_ast (predict set) < - Ts set ->
   friction_torque (predict set)
   = (y <- query (dryFricTable set) (- w_ast (predict set)) ;;
      Ok (- y + (- Tc set + Tv set * w_ast (predict set)) / den set))) /\
  (- Ts set <= T_ast (predict set) -> T_ast (predict set) <= Ts set ->
   friction_torque (predict set) = Ok (T_ast (predict set))).
Proof.
  destruct (predict_members set)
    as (Ew & ET & _ & _ & _ & ETs & ETc & ETv & Eden & _ & _ & _ & _ & _ & Etb).
  split; [| split].
  - intros P. unfold friction_torque.
    destruct (select_cases (predict set))
      as [(_ & ->) | [(NP & _) | (_ & S2 & _)]];
      [rewrite ETc, ETv, Eden, Etb; reflexivity | | ];
      rewrite ETs in *; [contradiction | lra].
  - intros NP N. unfold friction_torque.
    destruct (select_cases (predict set))
      as [(P & _) | [(_ & _ & ->) | (S1 & _ & _)]];
      [| rewrite ETc, ETv, Eden, Etb; reflexivity | ];
      rewrite ETs in *; [contradiction | lra].
  - intros S1 S2. unfold friction_torque.
    destruct (select_cases (predict set))
      as [(P & _) | [(_ & N & _) | (_ & _ & ->)]];
      [| | reflexivity]; rewrite ETs in *; lra.
Qed.

(** C7, as amended: with [w_ast = w + Z * Kf * e] and [T_ast = w_ast / Z],
    the torque [Tf] comes from the tests of [T_ast] against [Ts] taken in
    order.  When [T_ast > Ts] it is [table(w_ast) + (Tc + Tv * w_ast) / den],
    [table] being the call operator of the table [dryFricTable] points to;
    else, when [T_ast < -Ts], it is
    [-table(-w_ast) + (-Tc + Tv * w_ast) / den], the table being called at
    [-w_ast]; else, that is when [-Ts <= T_ast <= Ts], it is [T_ast] and
    the table is not called.  A throw of the table is the throw of the
    step, and a null pointer has no defined outcome.  For [Ts >= 0] the
    first two tests exclude each other; for [Ts < 0] both can hold and the
    first decides. *)
Theorem friction_regimes (set : JointValSet) :
  w_ast (predict set) = velocity_estimate set + Z' set * Kf set * e set /\
  T_ast (predict set) = w_ast (predict set) / Z' set /\
  (Ts set < T_ast (predict set) ->
   (forall tbl, dryFricTable set = Some tbl ->
      friction_torque (predict set)
      = (y <- LookUpTable.evaluate tbl (w_ast (predict set)) ;;
         Ok (y + (Tc set + Tv set * w_ast (predict set)) / den set))) /\
   (dryFricTable set = None ->
    friction_torque (predict set) = Raise undefined_behaviour)) /\
  (~ Ts set < T_ast (predict set) -> T_ast (predict set) < - Ts set ->
   (forall tbl, dryFricTable set = Some tbl ->
      friction_torque (predict set)
      = (y <- LookUpTable.evaluate tbl (- w_ast (predict set)) ;;
         Ok (- y + (- Tc set + Tv set * w_ast (predict set)) / den set))) /\
   (dryFricTable set = None ->
    friction_torque (predict set) = Raise undefined_behaviour)) /\
  (- Ts set <= T_ast (predict set) -> T_ast (predict set) <= Ts set ->
   friction_torque (predict set) = Ok (T_ast (predict set))) /\
  (0 <= Ts set -> T_ast (predict set) < - Ts set ->
   ~ Ts set < T_ast (predict set)) /\
  fst (setFrictionForces set)
  = (Tf <- friction_torque (predict set) ;; Ok (torqueForce set - Tf)).
Proof.
  destruct (predict_members set) as (Ew & ET & _).
  destruct (friction_torque_cases set) as (HP & HN & HS).
  split; [exact Ew |]. split; [exact ET |].
  split; [| split; [| split; [exact HS | split; [| apply setFrictionForces_fst]]]].
  - intros P. rewrite (HP P).
    split; [intros tbl -> | intros ->]; reflexivity.
  - intros NP N. rewrite (HN NP N).
    split; [intros tbl -> | intros ->]; reflexivity.
  - intros H0 N. lra.
Qed.

(** First call with [e = 33/8000]: [w_ast = 3/8] and [T_ast = 165/8 > Ts],
    positive slip; the table of the squares answers [5/32] inside its
    domain and the torque is [5/32 + (1/5 + 9/2 * 3/8) / (119/110)]. *)
Lemma friction_regimes_witness :
  exists Tf,
    friction_torque (predict (example_set (33 # 8000) 1 (Some squares))) = Ok Tf /\
    Tf == 7239 # 3808.
Proof.
  destruct (friction_regimes (example_set (33 # 8000) 1 (Some squares)))
    as (_ & _ & H & _).
  destruct H as [H _]; [vm_compute; reflexivity |].
  eexists. split.
  - rewrite (H squares eq_refl). reflexivity.
  - vm_compute. reflexivity.
Defined.

(** C7 as stated fails for a negative threshold.  With [Ts = -5/2] and
    [T_ast = 0] both [T_ast > Ts] and [T_ast < -Ts] hold; the step takes
    the first branch and the torque, [22/119], is not what the formula of
    the negative slip gives. *)
Lemma friction_regimes_counterexample :
  Ts negative_threshold_set < T_ast (predict negative_threshold_set) /\
  T_ast (predict negative_threshold_set) < - Ts negative_threshold_set /\
  exists Tf y,
    friction_torque (predict negative_threshold_set) = Ok Tf /\
    LookUpTable.evaluate squares (- w_ast (predict negative_threshold_set))
    = Ok y /\
    Tf == 22 # 119 /\
    ~ Tf == - y + (- Tc negative_threshold_set
                   + Tv negative_threshold_set
                     * w_ast (predict negative_threshold_set))
                  / den negative_threshold_set.
Proof.
  split; [vm_compute; reflexivity |].
  split; [vm_compute; reflexivity |].
  eexists. eexists.
  split; [reflexivity |]. split; [reflexivity |].
  split; [vm_compute; reflexivity |].
  vm_compute. discriminate.
Qed.

(** ** State after a step *)

Lemma firstTime_after (set : JointValSet) :
  firstTime (snd (setFrictionForces set)) = firstTime (predict set) /\
  w_ast (snd (setFrictionForces set)) = w_ast (predict set).
Proof.
  unfold setFrictionForces.
  destruct (friction_torque (predict set)); split; reflexivity.
Qed.

Lemma createTable_keeps exp W q (set set' : JointValSet) :
  createTable exp W q set = Ok set' ->
  e set' = e set /\ p_prev set' = p_prev set.
Proof.
  unfold createTable, bind.
  destruct (LookUpTable.ctor_default_policy _ _ _ _ _); [| discriminate].
  intros [= <-]. split; reflexivity.
Qed.

(** C8: a call takes the velocity [w = 0] when [firstTime] is set and
    [w = (value - p_prev) / dt] otherwise, and leaves [firstTime] cleared,
    so that every later call is of the second kind; [w_ast] is computed
    from that [w].  Once [Tf] is chosen the call sets [e] to
    [Z * (Bf * e_old + Tf * dt)], [p_prev] to [value], [torqueForce] to
    [torqueForce - Tf] and returns the new [torqueForce].  A call that the
    table query makes throw leaves [e] and [p_prev] as they were, and so
    does [createTable]. *)
Theorem setFrictionForces_update (set : JointValSet) :
  (truthy (firstTime set) = true -> velocity_estimate set = 0) /\
  (truthy (firstTime set) = false ->
   velocity_estimate set = (value set - p_prev set) / dt set) /\
  w_ast (snd (setFrictionForces set))
  = velocity_estimate set + Z' set * Kf set * e set /\
  truthy (firstTime (snd (setFrictionForces set))) = false /\
  (forall Tf, friction_torque (predict set) = Ok Tf ->
     fst (setFrictionForces set) = Ok (torqueForce set - Tf) /\
     e (snd (setFrictionForces set))
     = Z' set * (Bf set * e set + Tf * dt set) /\
     p_prev (snd (setFrictionForces set)) = value set /\
     torqueForce (snd (setFrictionForces set)) = torqueForce set - Tf) /\
  (forall ex, friction_torque (predict set) = Raise ex ->
     fst (setFrictionForces set) = Raise ex /\
     e (snd (setFrictionForces set)) = e set /\
     p_prev (snd (setFrictionForces set)) = p_prev set) /\
  (forall exp W q set',
     createTable exp W q set = Ok set' ->
     e set' = e set /\ p_prev set' = p_prev set).
Proof.
  destruct (predict_members set)
    as (Ew & _ & Eft & _ & _ & _ & _ & _ & _ & _ & _ & _ & Ee & Ep & _).
  destruct (firstTime_after set) as [Af Aw].
  split; [unfold velocity_estimate; intros ->; reflexivity |].
  split; [unfold velocity_estimate; intros ->; reflexivity |].
  split; [rewrite Aw; exact Ew |].
  split; [rewrite Af; exact Eft |].
  split; [| split].
  - intros Tf H. rewrite (setFrictionForces_Ok set Tf H).
    cbn [fst snd]. members. repeat split; reflexivity.
  - intros ex H. rewrite (setFrictionForces_Raise set ex H).
    cbn [fst snd]. repeat split; assumption.
  - intros exp W q set'. apply createTable_keeps.
Qed.

(** First call in the stick regime ([e = 0], so [T_ast = 0]), with the
    default constants. *)
Lemma setFrictionForces_update_witness :
  velocity_estimate (example_set 0 1 None) = 0 /\
  p_prev (snd (setFrictionForces (example_set 0 1 None))) = 0 /\
  exists v, fst (setFrictionForces (example_set 0 1 None)) = Ok v /\ v == 0.
Proof.
  destruct (setFrictionForces_update (example_set 0 1 None))
    as (H1 & _ & _ & _ & H2 & _).
  split; [apply H1; reflexivity |].
  destruct (H2 (T_ast (predict (example_set 0 1 None)))) as (R & _ & P & _);
    [reflexivity |].
  split; [exact P |].
  eexists. split; [exact R | vm_compute; reflexivity].
Defined.

(** ** The stick regime *)

Lemma predict_set_dryFricTable (set : JointValSet) p :
  predict (set_dryFricTable set p) = set_dryFricTable (predict set) p.
Proof.
  unfold predict. members.
  destruct (truthy (firstTime set)); reflexivity.
Qed.

Lemma friction_torque_stick (s : JointValSet) :
  - Ts s <= T_ast s -> T_ast s <= Ts s ->
  select s = Stick /\ friction_torque s = Ok (T_ast s).
Proof.
  intros H1 H2. unfold friction_torque.
  destruct (select_cases s) as [(P & _) | [(_ & N & _) | (_ & _ & E)]];
    [lra | lra |].
  rewrite E. split; reflexivity.
Qed.

(** C10: when [-Ts <= T_ast <= Ts] the call returns
    [torqueForce - T_ast] whatever [dryFricTable] is, a null pointer or a
    table never built included: the table is not reached and the pointer
    is left as it was. *)
Theorem stick_regime_no_query (set : JointValSet) :
  - Ts set <= T_ast (predict set) -> T_ast (predict set) <= Ts set ->
  forall p : option LookUpTable.t,
    select (predict (set_dryFricTable set p)) = Stick /\
    fst (setFrictionForces (set_dryFricTable set p))
    = Ok (torqueForce set - T_ast (predict set)) /\
    dryFricTable (snd (setFrictionForces (set_dryFricTable set p))) = p.
Proof.
  intros H1 H2 p.
  destruct (predict_members set) as (_ & _ & _ & _ & _ & ETs & _).
  assert (S : select (predict (set_dryFricTable set p)) = Stick /\
              friction_torque (predict (set_dryFricTable set p))
              = Ok (T_ast (predict set))).
  { rewrite predict_set_dryFricTable.
    apply (friction_torque_stick (set_dryFricTable (predict set) p));
      members; rewrite ETs; assumption. }
  destruct S as [S1 S2]. split; [exact S1 |].
  rewrite (setFrictionForces_Ok _ _ S2). cbn [fst snd].
  rewrite predict_set_dryFricTable. members.
  split; reflexivity.
Qed.

(** A joint at rest whose table pointer is null or points to a table
    never built: the step returns [torqueForce - T_ast = 0 - 0]. *)
Lemma stick_regime_no_query_witness :
  exists v,
    fst (setFrictionForces (example_set 0 1 None)) = Ok v /\
    fst (setFrictionForces
           (example_set 0 1 (Some (LookUpTable.default_ctor 0)))) = Ok v /\
    v == 0.
Proof.
  pose proof (stick_regime_no_query (example_set 0 1 None)) as H.
  assert (H1 : - Ts (example_set 0 1 None)
               <= T_ast (predict (example_set 0 1 None)))
    by (vm_compute; discriminate).
  assert (H2 : T_ast (predict (example_set 0 1 None))
               <= Ts (example_set 0 1 None))
    by (vm_compute; discriminate).
  destruct (H H1 H2 None) as (_ & A & _).
  destruct (H H1 H2 (Some (LookUpTable.default_ctor 0))) as (_ & B & _).
  eexists. split; [exact A |]. split; [exact B |].
  vm_compute. reflexivity.
Defined.

(** ** The dry friction table *)

Import LookUpTable LookUpTableTerms LookUpTableFacts LookUpTableSpec.




End FrictionSpec.

(** ** Further properties of the table *)

Module LookUpTableMore.
Import LookUpTable LookUpTableTerms LookUpTableFacts LookUpTableSpec.

Lemma create_returns_true self mn mx st f :
  mn <= mx -> ~ st == 0 -> (0 <= tableSize mn mx st <= SIZE_MAX)%Z ->
  returned (create self mn mx st f) = Ok true.
Proof.
  intros Hle Hst Hsz. unfold create.
  replace (Qlt_bool mx mn) with false
    by (symmetry; apply Qlt_bool_false_iff; exact Hle).
  replace (Qeq_bool st 0) with false
    by (symmetry; apply Qeq_bool_false_iff; exact Hst).
  cbn [orb]. fold (tableSize mn mx st).
  destruct (to_size_t (tableSize mn mx st)) as [n |] eqn:E.
  - destruct (fold_left _ _ _). reflexivity.
  - apply to_size_t_None in E. lia.
Qed.

Lemma created_eta (c : created) :
  c = mk_created (returned c) (object c) (calls c).
Proof. destruct c. reflexivity. Qed.

(** X1: a call of [create] that returns [true] overwrites whatever the
    object held: the outcome, the object left and the calls made to [f]
    are those of the same call on any other object of the same policy
    (a fresh one, or one holding a longer or shorter table). *)
Theorem create_overwrites self1 self2 mn mx st f :
  outbounds_ self1 = outbounds_ self2 ->
  returned (create self1 mn mx st f) = Ok true ->
  create self2 mn mx st f = create self1 mn mx st f.
Proof.
  intros Hob Hc1.
  destruct (create_true _ _ _ _ _ Hc1) as (Hle & Hst & Hsz & Hobj1 & Hcalls1).
  pose proof (create_returns_true self2 mn mx st f Hle Hst Hsz) as Hc2.
  destruct (create_true _ _ _ _ _ Hc2) as (_ & _ & _ & Hobj2 & Hcalls2).
  rewrite (created_eta (create self2 mn mx st f)).
  rewrite (created_eta (create self1 mn mx st f)).
  rewrite Hc1, Hc2, Hobj1, Hobj2, Hcalls1, Hcalls2, Hob. reflexivity.
Qed.

(** The table of five squares sampled again on [[0, 1/2]]: what is left
    is what the same call leaves on a fresh object. *)
Lemma create_overwrites_witness :
  create (default_ctor 0) 0 (1 # 2) (1 # 4) (fun x => x + 1)
  = create (object (create (default_ctor 0) 0 1 (1 # 4) (fun x => x * x)))
           0 (1 # 2) (1 # 4) (fun x => x + 1).
Proof.
  apply (create_overwrites
           (object (create (default_ctor 0) 0 1 (1 # 4) (fun x => x * x)))
           (default_ctor 0) 0 (1 # 2) (1 # 4) (fun x => x + 1));
    reflexivity.
Defined.

(** X2: [empty()] after [create].  A call that returned [false] leaves
    [empty()] as it was; after a call that returned [true], [empty()] holds
    exactly when [floor((max - min) / step) + 1] is 0, which a positive
    step excludes. *)
Theorem empty_after_create self mn mx st f :
  (returned (create self mn mx st f) = Ok false ->
   empty (object (create self mn mx st f)) = empty self) /\
  (returned (create self mn mx st f) = Ok true ->
   (empty (object (create self mn mx st f)) = true
    <-> tableSize mn mx st = 0%Z) /\
   (0 < st -> empty (object (create self mn mx st f)) = false)).
Proof.
  split.
  - intros Hc. destruct (create_false_unchanged _ _ _ _ _ Hc) as [-> _].
    reflexivity.
  - intros Hc.
    destruct (create_true _ _ _ _ _ Hc) as (Hle & _ & Hsz & Hobj & _).
    destruct (create_true_members _ _ _ _ _ Hc) as (_ & _ & _ & Hlen).
    split.
    + rewrite empty_true. split; intros H.
      * rewrite H in Hlen. simpl in Hlen. lia.
      * destruct (table_ (object (create self mn mx st f)));
          [reflexivity | simpl in Hlen; lia].
    + intros Hst. apply empty_false.
      pose proof (tableSize_pos mn mx st Hst Hle). lia.
Qed.

(** [create(0, 1, 1/4, f)] on a fresh table: [empty()] turns false. *)
Lemma empty_after_create_witness :
  empty (object (create (default_ctor 0) 0 1 (1 # 4) (fun x => x * x))) = false.
Proof.
  destruct (empty_after_create (default_ctor 0) 0 1 (1 # 4) (fun x => x * x))
    as [_ H].
  destruct (H eq_refl) as [_ H']. apply H'. reflexivity.
Defined.

(** The call at [max] returns the value stored last. *)
Lemma evaluate_at_max self mn mx st f :
  0 < st ->
  returned (create self mn mx st f) = Ok true ->
  index mn st mx = (Z.to_nat (tableSize mn mx st) - 1)%nat /\
  evaluate (object (create self mn mx st f)) mx
  = Ok (f (sample_x mn st (Z.to_nat (tableSize mn mx st) - 1))).
Proof.
  intros Hst Hc.
  destruct (create_true _ _ _ _ _ Hc) as (Hle & _ & Hsz & _).
  destruct (created_nonempty self mn mx st f Hst Hc) as [Hne Hn].
  assert (H0 : (0 <= Qfloor ((mx - mn) / st))%Z)
    by (apply floor_div_nonneg; [exact Hst | lra]).
  assert (Hidx : index mn st mx = (Z.to_nat (tableSize mn mx st) - 1)%nat)
    by (unfold index, tableSize; lia).
  split; [exact Hidx |].
  destruct (evaluate_created self mn mx st f mx Hc Hne Hle ltac:(lra))
    as (_ & _ & Hev).
  rewrite Hev, Hidx, Nat.ltb_irrefl. reflexivity.
Qed.



(** X6: policy [BoundValue] past the upper bound.  After a successful
    [create] with [step > 0], under [BoundValue] the call at any [x > max]
    returns what the call at [max] returns, the value stored last. *)
Theorem bound_value_extends self mn mx st f x :
  0 < st ->
  returned (create self mn mx st f) = Ok true ->
  outbounds_ self = BoundValue ->
  mx < x ->
  evaluate (object (create self mn mx st f)) x
  = evaluate (object (create self mn mx st f)) mx /\
  evaluate (object (create self mn mx st f)) x
  = Ok (snd (at_ (table_ (object (create self mn mx st f)))
                 (length (table_ (object (create self mn mx st f))) - 1))).
Proof.
  intros Hst Hc Hob Hx.
  destruct (created_nonempty self mn mx st f Hst Hc) as [Hne Hn].
  destruct (create_true _ _ _ _ _ Hc) as (Hle & _ & _ & Hobj & _).
  destruct (create_true_members _ _ _ _ _ Hc) as (Emin & Emax & _ & Hlen).
  pose proof (create_outbounds self mn mx st f) as Eob.
  rewrite evaluate_outside_members by (try rewrite Emax; auto).
  rewrite Eob, Hob, Emin.
  replace (Qlt_bool x mn) with false
    by (symmetry; apply Qlt_bool_false_iff; lra).
  destruct (evaluate_at_max self mn mx st f Hst Hc) as [_ Hev].
  rewrite Hev, Hlen, Hobj. cbn [table_]. rewrite at_samples by lia.
  split; reflexivity.
Qed.

(** Policy [BoundValue], the squares on [[0, 1]]: the call at 101 returns
    what the call at 1 returns. *)
Lemma bound_value_extends_witness :
  evaluate (object (create (mk [] 0 0 0 BoundValue) 0 1 (1 # 4)
                           (fun x => x * x))) (101 # 1)
  = evaluate (object (create (mk [] 0 0 0 BoundValue) 0 1 (1 # 4)
                             (fun x => x * x))) 1.
Proof.
  destruct (bound_value_extends (mk [] 0 0 0 BoundValue) 0 1 (1 # 4)
              (fun x => x * x) (101 # 1)) as [H _];
    [lra | reflexivity | reflexivity | reflexivity |].
  exact H.
Defined.

(** The call operator looks at the number [x] only, on any object. *)
Lemma evaluate_proper (self : t) (x x' : Q) :
  x == x' -> result_rel Qeq (evaluate self x) (evaluate self x').
Proof.
  intros H. unfold evaluate.
  destruct (empty self); [reflexivity |].
  assert (E1 : Qlt_bool x (min_ self) = Qlt_bool x' (min_ self))
    by (unfold Qlt_bool; rewrite H; reflexivity).
  assert (E2 : Qlt_bool (max_ self) x = Qlt_bool (max_ self) x')
    by (unfold Qlt_bool; rewrite H; reflexivity).
  assert (E3 : Qfloor ((x - min_ self) / step_ self)
               = Qfloor ((x' - min_ self) / step_ self))
    by (rewrite H; reflexivity).
  rewrite E1, E2, E3.
  destruct (Qlt_bool x' (min_ self) || Qlt_bool (max_ self) x').
  - destruct (outbounds_ self); cbn [result_rel]; try reflexivity.
    destruct (Qlt_bool x' (min_ self)); cbn [result_rel]; reflexivity.
  - destruct (to_size_t _) as [k |]; [| reflexivity].
    destruct (_ <? _)%nat; cbn [result_rel]; [| reflexivity].
    rewrite H. reflexivity.
Qed.

(** On a table left by a successful [create] with [step > 0] and a policy
    other than [Fail] the call operator returns at every [x]. *)
Lemma evaluate_returns self mn mx st f x :
  0 < st ->
  returned (create self mn mx st f) = Ok true ->
  outbounds_ self <> Fail ->
  exists v, evaluate (object (create self mn mx st f)) x = Ok v.
Proof.
  intros Hst Hc Hob.
  destruct (created_nonempty self mn mx st f Hst Hc) as [Hne _].
  destruct (create_true_members _ _ _ _ _ Hc) as (Emin & Emax & _ & _).
  pose proof (create_outbounds self mn mx st f) as Eob.
  destruct (Qlt_le_dec x mn) as [L | L]; [| destruct (Qlt_le_dec mx x) as [U | U]].
  - rewrite evaluate_outside_members by (try rewrite Emin; auto).
    rewrite Eob. destruct (outbounds_ self); [contradiction | | eauto].
    destruct (Qlt_bool x _); eauto.
  - rewrite evaluate_outside_members by (try rewrite Emax; auto).
    rewrite Eob. destruct (outbounds_ self); [contradiction | | eauto].
    destruct (Qlt_bool x _); eauto.
  - destruct (evaluate_created self mn mx st f x Hc Hne L U) as (_ & _ & Hev).
    rewrite Hev. destruct (_ <? _)%nat; eauto.
Qed.

End LookUpTableMore.

(** ** Further properties of the friction step *)

Module FrictionMore.
Import LookUpTableTerms Friction FrictionTerms FrictionSpec.

(** X9: a step changes no parameter.  Whatever the outcome,
    [setFrictionForces] leaves the position, the friction constants, the
    gains, the time step, the table bounds and the table pointer as they
    were: it writes [firstTime], [w_ast], [T_ast], [e], [p_prev] and
    [torqueForce] only. *)
Theorem setFrictionForces_frame (set : JointValSet) :
  value (snd (setFrictionForces set)) = value set /\
  velocity (snd (setFrictionForces set)) = velocity set /\
  Ts (snd (setFrictionForces set)) = Ts set /\
  Tc (snd (setFrictionForces set)) = Tc set /\
  Tsc (snd (setFrictionForces set)) = Tsc set /\
  Tv (snd (setFrictionForces set)) = Tv set /\
  wbrk (snd (setFrictionForces set)) = wbrk set /\
  Kf (snd (setFrictionForces set)) = Kf set /\
  Bf (snd (setFrictionForces set)) = Bf set /\
  lambArg_th (snd (setFrictionForces set)) = lambArg_th set /\
  dt (snd (setFrictionForces set)) = dt set /\
  Z' (snd (setFrictionForces set)) = Z' set /\
  den (snd (setFrictionForces set)) = den set /\
  min (snd (setFrictionForces set)) = min set /\
  max (snd (setFrictionForces set)) = max set /\
  LUTstep (snd (setFrictionForces set)) = LUTstep set /\
  dry (snd (setFrictionForces set)) = dry set /\
  dryFricTable (snd (setFrictionForces set)) = dryFricTable set.
Proof.
  unfold setFrictionForces.
  destruct (friction_torque (predict set)); cbn [snd]; members;
    unfold predict; destruct (truthy (firstTime set)); members;
    repeat split; reflexivity.
Qed.

Lemma query_proper p x x' :
  x == x' -> result_rel Qeq (query p x) (query p x').
Proof.
  intros H. destruct p as [tbl |]; cbn [query]; [| reflexivity].
  apply LookUpTableMore.evaluate_proper. exact H.
Qed.

Lemma predict_mirror (set : JointValSet) :
  w_ast (predict (mirror set)) == - w_ast (predict set) /\
  T_ast (predict (mirror set)) == - T_ast (predict set) /\
  Ts (predict (mirror set)) = Ts set /\ Tc (predict (mirror set)) = Tc set /\
  Tv (predict (mirror set)) = Tv set /\ den (predict (mirror set)) = den set /\
  dryFricTable (predict (mirror set)) = dryFricTable set.
Proof.
  assert (Hw : w_ast (predict (mirror set)) == - w_ast (predict set)).
  { unfold predict, mirror. members.
    destruct (truthy (firstTime set)); members; unfold Qdiv; ring. }
  split; [exact Hw |].
  split.
  - destruct (predict_members set) as (_ & -> & _).
    destruct (predict_members (mirror set)) as (_ & -> & _).
    rewrite Hw. unfold mirror. members. unfold Qdiv. ring.
  - unfold predict, mirror. members.
    destruct (truthy (firstTime set)); members; repeat split; reflexivity.
Qed.

(** X11: the friction torque is odd.  For [Ts >= 0], the step of the joint
    moved the other way (positions and error negated, same table) throws
    what the step of the joint throws, or else chooses the opposite
    torque: the negative-slip branch at [-w_ast] mirrors the positive-slip
    branch at [w_ast], the table being called at the same number. *)
Theorem friction_torque_odd (set : JointValSet) :
  0 <= Ts set ->
  result_rel (fun Tf Tf' => Tf' == - Tf)
    (friction_torque (predict set)) (friction_torque (predict (mirror set))).
Proof.
  intros HTs.
  destruct (predict_members set)
    as (_ & _ & _ & _ & _ & ETs & ETc & ETv & Eden & _ & _ & _ & _ & _ & Etb).
  destruct (predict_mirror set) as (Hw & HT & MTs & MTc & MTv & Mden & Mtb).
  unfold friction_torque.
  rewrite ETc, ETv, Eden, Etb, MTc, MTv, Mden, Mtb.
  destruct (select_cases (predict set))
    as [(P & ->) | [(NP & N & ->) | (S1 & S2 & ->)]];
    destruct (select_cases (predict (mirror set)))
      as [(P' & ->) | [(NP' & N' & ->) | (S1' & S2' & ->)]];
    rewrite ?ETs, ?MTs, ?HT in *; try lra.
  - pose proof (query_proper (dryFricTable set) (w_ast (predict set))
                  (- w_ast (predict (mirror set)))) as Q.
    specialize (Q ltac:(rewrite Hw; ring)).
    destruct (query _ (w_ast (predict set))) as [y |];
      destruct (query _ (- w_ast (predict (mirror set)))) as [y' |];
      cbn [result_rel bind] in *; try contradiction; [| exact Q].
    rewrite Hw, Q. unfold Qdiv. ring.
  - pose proof (query_proper (dryFricTable set) (- w_ast (predict set))
                  (w_ast (predict (mirror set)))) as Q.
    specialize (Q ltac:(rewrite Hw; ring)).
    destruct (query _ (- w_ast (predict set))) as [y |];
      destruct (query _ (w_ast (predict (mirror set)))) as [y' |];
      cbn [result_rel bind] in *; try contradiction; [| exact Q].
    rewrite Hw, Q. unfold Qdiv. ring.
  - cbn [result_rel]. exact HT.
Qed.

(** The default joint in positive slip ([e = 1]) and its mirror image
    ([e = -1]), with the table of the squares. *)
Lemma friction_torque_odd_witness :
  result_rel (fun Tf Tf' => Tf' == - Tf)
    (friction_torque (predict (example_set 1 1 (Some squares))))
    (friction_torque (predict (mirror (example_set 1 1 (Some squares))))).
Proof.
  apply (friction_torque_odd (example_set 1 1 (Some squares))).
  vm_compute. discriminate.
Defined.

(** The torque when the table answers every query. *)
Lemma friction_torque_returns (s : JointValSet) :
  (forall x, exists y, query (dryFricTable s) x = Ok y) ->
  exists Tf, friction_torque s = Ok Tf.
Proof.
  intros Hq. unfold friction_torque.
  destruct (select s).
  - destruct (Hq (w_ast s)) as [y ->]. cbn [bind]. eauto.
  - destruct (Hq (- w_ast s)) as [y ->]. cbn [bind]. eauto.
  - eauto.
Qed.

(** X12: once [createTable] has built the table, no step throws.  When
    [min <= max], [LUTstep > 0] and the number of samples is a [size_t],
    every call of [setFrictionForces] on a set holding the pointer that
    [createTable] stored returns the [torqueForce] it leaves, in the three
    regimes alike: the table has policy [Zero]. *)
Theorem step_returns_after_createTable exp W q (set0 set1 set : JointValSet) :
  min set0 <= max set0 -> 0 < LUTstep set0 ->
  (tableSize (min set0) (max set0) (LUTstep set0) <= SIZE_MAX)%Z ->
  createTable exp W q set0 = Ok set1 ->
  dryFricTable set = dryFricTable set1 ->
  exists v,
    fst (setFrictionForces set) = Ok v /\
    v = torqueForce (snd (setFrictionForces set)).
Proof.
  intros Hle Hst Hsz.
  set (f := dry_curve exp W (Tsc set0) (Tc set0) (wbrk set0) (Z' set0) (den set0)).
  set (fresh := LookUpTable.mk [] q q q LookUpTable.Zero).
  pose proof (LookUpTableSpec.create_succeeds fresh (min set0) (max set0)
                (LUTstep set0) f Hle Hst Hsz) as Hc.
  unfold createTable, LookUpTable.ctor_default_policy, LookUpTable.ctor.
  fold f. fold fresh. rewrite Hc. cbn [bind]. intros [= <-]. members.
  intros Hp.
  destruct (predict_members set)
    as (_ & _ & _ & _ & Etq & _ & _ & _ & _ & _ & _ & _ & _ & _ & Etb).
  destruct (friction_torque_returns (predict set)) as [Tf HTf].
  { intros x. rewrite Etb, Hp. cbn [query].
    apply LookUpTableMore.evaluate_returns; [exact Hst | exact Hc |].
    discriminate. }
  rewrite (setFrictionForces_Ok set Tf HTf). cbn [fst snd]. members.
  eexists. split; reflexivity.
Qed.

(** A joint whose table spans [[0, 1]] in steps of one quarter, in
    positive slip ([e = 1]): the table is built and the step returns. *)
Lemma step_returns_after_createTable_witness :
  exists v,
    fst (setFrictionForces
           (set_dryFricTable (coarse_set 1 1)
              (Some (LookUpTable.object
                       (LookUpTable.create
                          (LookUpTable.mk [] 0 0 0 LookUpTable.Zero)
                          0 1 (1 # 4)
                          (dry_curve (fun x => x) (fun x => x)
                             (Tsc (coarse_set 1 1)) (Tc (coarse_set 1 1))
                             (wbrk (coarse_set 1 1)) (Z' (coarse_set 1 1))
                             (den (coarse_set 1 1)))))))) = Ok v.
Proof.
  destruct (step_returns_after_createTable (fun x => x) (fun x => x) 0
              (coarse_set 1 1)
              (set_dryFricTable (coarse_set 1 1)
                 (Some (LookUpTable.object
                          (LookUpTable.create
                             (LookUpTable.mk [] 0 0 0 LookUpTable.Zero)
                             0 1 (1 # 4)
                             (dry_curve (fun x => x) (fun x => x)
                                (Tsc (coarse_set 1 1)) (Tc (coarse_set 1 1))
                                (wbrk (coarse_set 1 1)) (Z' (coarse_set 1 1))
                                (den (coarse_set 1 1)))))))
              (set_dryFricTable (coarse_set 1 1)
                 (Some (LookUpTable.object
                          (LookUpTable.create
                             (LookUpTable.mk [] 0 0 0 LookUpTable.Zero)
                             0 1 (1 # 4)
                             (dry_curve (fun x => x) (fun x => x)
                                (Tsc (coarse_set 1 1)) (Tc (coarse_set 1 1))
                                (wbrk (coarse_set 1 1)) (Z' (coarse_set 1 1))
                                (den (coarse_set 1 1))))))))
    as (v & Hv & _);
    [vm_compute; discriminate | reflexivity | vm_compute; discriminate
    | reflexivity | reflexivity |].
  exists v. exact Hv.
Defined.

(** X13: [createTable] does not report a rejected domain.  When
    [max < min] or [LUTstep == 0] the constructor drops the [false] of
    [create]: [createTable] returns with a pointer to an empty table of
    policy [Zero].  A later step outside the stick regime then throws
    std::out_of_range for the uninitialised table, leaving [e], [p_prev]
    and [torqueForce] as they were. *)
Theorem createTable_rejected_domain exp W q (set0 set : JointValSet) :
  max set0 < min set0 \/ LUTstep set0 == 0 ->
  createTable exp W q set0
  = Ok (set_dryFricTable set0
          (Some (LookUpTable.mk [] q q q LookUpTable.Zero))) /\
  (dryFricTable set = Some (LookUpTable.mk [] q q q LookUpTable.Zero) ->
   select (predict set) <> Stick ->
   fst (setFrictionForces set)
   = Raise (out_of_range LookUpTable.what_uninitialized) /\
   e (snd (setFrictionForces set)) = e set /\
   p_prev (snd (setFrictionForces set)) = p_prev set /\
   torqueForce (snd (setFrictionForces set)) = torqueForce set).
Proof.
  intros Hbad. split.
  - unfold createTable, LookUpTable.ctor_default_policy, LookUpTable.ctor.
    set (c := LookUpTable.create _ _ _ _ _).
    assert (Hc : LookUpTable.returned c = Ok false)
      by (apply LookUpTableSpec.create_false_iff; exact Hbad).
    destruct (LookUpTableSpec.create_false_unchanged _ _ _ _ _ Hc) as [Ho _].
    fold c in Ho. rewrite Hc, Ho. reflexivity.
  - intros Hp Hsel.
    destruct (predict_members set)
      as (_ & _ & _ & _ & Etq & _ & _ & _ & _ & _ & _ & _ & Ee & Ep & Etb).
    assert (HTf : friction_torque (predict set)
                  = Raise (out_of_range LookUpTable.what_uninitialized)).
    { unfold friction_torque. rewrite Etb, Hp.
      destruct (select (predict set)); [reflexivity | reflexivity |].
      contradiction. }
    rewrite (setFrictionForces_Raise set _ HTf). cbn [fst snd].
    repeat split; assumption.
Qed.

(** The default joint with a logarithm standing at 7, which puts [max]
    below [min], in positive slip ([e = 1]): the step throws. *)
Lemma createTable_rejected_domain_witness :
  fst (setFrictionForces
         (example_set 1 1 (Some (LookUpTable.mk [] 0 0 0 LookUpTable.Zero))))
  = Raise (out_of_range LookUpTable.what_uninitialized).
Proof.
  destruct (createTable_rejected_domain (fun x => x) (fun x => x) 0
              (default_init (fun _ => 7 # 1) 0 0 0 1 0 0 0 1)
              (example_set 1 1
                 (Some (LookUpTable.mk [] 0 0 0 LookUpTable.Zero))))
    as [_ H]; [left; vm_compute; reflexivity |].
  destruct H as [H _]; [reflexivity | vm_compute; discriminate |].
  exact H.
Defined.

End FrictionMore.

(** ** Arithmetic and order of doubles *)

Module Binary64Facts.
Import Binary64.

Lemma Fsub_self x : is_finite x = true -> Fsub x x = S754_zero false.
Proof.
  destruct x as [s | s | | s m e]; cbn; try discriminate; intros _.
  - destruct s; reflexivity.
  - rewrite Z.sub_diag. reflexivity.
Qed.

Lemma Fmul_zero_r d z :
  is_finite d = true -> is_zero z = true -> is_zero (Fmul d z) = true.
Proof.
  destruct d as [s | s | | s m e], z as [sz | sz | | sz mz ez];
    cbn; try discriminate; reflexivity.
Qed.

Lemma Fdiv_zero_l z g :
  is_zero z = true -> is_nan g = false -> is_zero g = false ->
  is_zero (Fdiv z g) = true.
Proof.
  destruct z as [sz | sz | | sz mz ez], g as [s | s | | s m e];
    cbn; try discriminate; reflexivity.
Qed.

Lemma SFcompare_refl x : is_nan x = false -> SFcompare x x = Some Eq.
Proof.
  destruct x as [s | s | | s m e]; cbn; try discriminate; intros _.
  - reflexivity.
  - destruct s; reflexivity.
  - rewrite Z.compare_refl, Pos.compare_cont_refl. destruct s; reflexivity.
Qed.

Lemma Feqb_refl x : is_nan x = false -> Feqb x x = true.
Proof. intros H. unfold Feqb, SFeqb. rewrite SFcompare_refl by exact H. reflexivity. Qed.

Lemma Fleb_refl x : is_nan x = false -> Fleb x x = true.
Proof. intros H. unfold Fleb, SFleb. rewrite SFcompare_refl by exact H. reflexivity. Qed.

Lemma Fltb_Fleb a b : Fltb a b = true -> Fleb a b = true.
Proof.
  unfold Fltb, Fleb, SFltb, SFleb.
  destruct (SFcompare a b) as [[| |] |]; congruence.
Qed.

Lemma Fltb_not_nan a b :
  Fltb a b = true -> is_nan a = false /\ is_nan b = false.
Proof.
  unfold Fltb, SFltb.
  destruct a as [sa | sa | | sa ma ea], b as [sb | sb | | sb mb eb];
    cbn; try discriminate; auto.
Qed.

Lemma Fadd_zero_r y z :
  is_nan y = false -> is_zero z = true -> Feqb (Fadd y z) y = true.
Proof.
  destruct z as [sz | sz | | sz mz ez]; try discriminate.
  destruct y as [s | s | | s m e]; try discriminate; intros _ _.
  - destruct s, sz; reflexivity.
  - destruct s; reflexivity.
  - change (Fadd (S754_finite s m e) (S754_zero sz)) with (S754_finite s m e).
    apply Feqb_refl. reflexivity.
Qed.

(** Adding a zero to a finite number other than zero changes nothing. *)
Lemma Fadd_zero_r_finite y z :
  is_finite y = true -> is_zero y = false -> is_zero z = true -> Fadd y z = y.
Proof.
  destruct z as [sz | sz | | sz mz ez]; try discriminate.
  destruct y as [s | s | | s m e]; try discriminate. reflexivity.
Qed.

Lemma floor_zero z : is_zero z = true -> floor z = z.
Proof. destruct z; try discriminate. reflexivity. Qed.

Lemma cast_zero z : is_zero z = true -> cast_size_t z = Some 0%nat.
Proof. destruct z; try discriminate. reflexivity. Qed.


(** Comparison of doubles the other way round. *)
Lemma SFcompare_swap a b :
  SFcompare b a = option_map CompOpp (SFcompare a b).
Proof.
  destruct a as [sa | sa | | sa ma ea], b as [sb | sb | | sb mb eb];
    cbn; try reflexivity;
    try (destruct sa; reflexivity); try (destruct sb; reflexivity);
    try (destruct sa, sb; reflexivity).
  assert (P : Pos.compare_cont Eq mb ma = CompOpp (Pos.compare_cont Eq ma mb))
    by (rewrite (Pos.compare_cont_antisym ma mb Eq); reflexivity).
  destruct sa, sb; try reflexivity;
    rewrite (Z.compare_antisym ea eb), P;
    destruct (ea ?= eb)%Z; cbn; try reflexivity;
    destruct (Pos.compare_cont Eq ma mb); reflexivity.
Qed.

(** [a <= b] excludes [b < a]. *)
Lemma Fleb_not_Fltb a b : Fleb a b = true -> Fltb b a = false.
Proof.
  unfold Fleb, Fltb, SFleb, SFltb. rewrite (SFcompare_swap a b).
  destruct (SFcompare a b) as [[| |] |]; cbn; congruence.
Qed.





Lemma Fmul_zero_l z s :
  is_zero z = true -> is_finite s = true -> is_zero (Fmul z s) = true.
Proof.
  destruct z as [sz | sz | | sz mz ez], s as [ss | ss | | ss m e];
    cbn; try discriminate; reflexivity.
Qed.

End Binary64Facts.

(** ** The table of doubles: what [create] stores *)

Module LookUpTable64Facts.
Import Binary64 LookUpTable64 LookUpTable64Terms.

Lemma length_assign64 v i p : length (assign v i p) = length v.
Proof.
  revert i. induction v as [| q v IH]; intros [| i]; simpl; auto.
Qed.

Lemma at_assign_same64 v i p : (i < length v)%nat -> at_ (assign v i p) i = p.
Proof.
  unfold at_. revert i.
  induction v as [| q v IH]; intros [| i] H; simpl in *; try lia; auto.
  apply IH. lia.
Qed.

Lemma assign_assign64 v i p q : assign (assign v i p) i q = assign v i q.
Proof.
  revert i. induction v as [| r v IH]; intros [| i]; simpl; auto.
  now rewrite IH.
Qed.

Lemma firstn_assign64 v i p :
  (i < length v)%nat -> firstn (S i) (assign v i p) = firstn i v ++ [p].
Proof.
  revert i. induction v as [| q v IH]; intros [| i] H; simpl in *; try lia; auto.
  f_equal. apply IH. lia.
Qed.

Lemma length_resize64 n v : length (resize n v) = n.
Proof.
  unfold resize. rewrite length_app, length_firstn, repeat_length. lia.
Qed.

Lemma create_body_spec64 mn st f tbl cs i :
  (i < length tbl)%nat ->
  create_body mn st f (tbl, cs) i
  = (assign tbl i (sample mn st f i), cs ++ [sample_x mn st i]).
Proof.
  intros H. unfold create_body.
  rewrite at_assign_same64 by exact H. simpl fst.
  rewrite assign_assign64. reflexivity.
Qed.

Lemma create_loop64 mn st f k :
  forall a v cs, length v = (a + k)%nat ->
  fold_left (create_body mn st f) (seq a k) (v, cs)
  = (firstn a v ++ map (sample mn st f) (seq a k),
     cs ++ map (sample_x mn st) (seq a k)).
Proof.
  induction k as [| k IH]; intros a v cs H; cbn [seq fold_left map].
  - rewrite !app_nil_r, firstn_all2 by lia. reflexivity.
  - rewrite create_body_spec64 by lia.
    rewrite IH by (rewrite length_assign64; lia).
    rewrite firstn_assign64 by lia.
    rewrite <- !app_assoc. reflexivity.
Qed.

Lemma at_samples64 mn st f n i :
  (i < n)%nat -> at_ (map (sample mn st f) (seq 0 n)) i = sample mn st f i.
Proof.
  intros H. unfold at_.
  rewrite nth_indep with (d' := sample mn st f 0%nat)
    by (rewrite length_map, length_seq; exact H).
  rewrite map_nth, seq_nth by exact H. reflexivity.
Qed.

(** The four ways a call of [create] ends. *)
Lemma create_cases64 ms self mn mx st f :
  (Fltb mx mn || Feqb st (of_Z 0) = true /\
   create ms self mn mx st f = mk_created (Ok false) self []) \/
  (Fltb mx mn || Feqb st (of_Z 0) = false /\
   cast_size_t (tableSize mn mx st) = None /\
   create ms self mn mx st f
   = mk_created (Raise undefined_behaviour)
       (mk (table_ self) mn mx st (outbounds_ self)) []) \/
  (exists n,
     Fltb mx mn || Feqb st (of_Z 0) = false /\
     cast_size_t (tableSize mn mx st) = Some n /\ (ms < Z.of_nat n)%Z /\
     create ms self mn mx st f
     = mk_created (Raise length_error)
         (mk (table_ self) mn mx st (outbounds_ self)) []) \/
  (exists n,
     Fltb mx mn || Feqb st (of_Z 0) = false /\
     cast_size_t (tableSize mn mx st) = Some n /\ (Z.of_nat n <= ms)%Z /\
     create ms self mn mx st f
     = mk_created (Ok true)
         (mk (map (sample mn st f) (seq 0 n)) mn mx st (outbounds_ self))
         (map (sample_x mn st) (seq 0 n))).
Proof.
  unfold create. fold (tableSize mn mx st).
  destruct (Fltb mx mn || Feqb st (of_Z 0)); [left; auto |].
  right.
  destruct (cast_size_t (tableSize mn mx st)) as [n |]; [| left; auto].
  right.
  destruct (ms <? Z.of_nat n)%Z eqn:L.
  - left. exists n. apply Z.ltb_lt in L. auto.
  - right. exists n. apply Z.ltb_ge in L.
    rewrite length_resize64.
    rewrite create_loop64 by (rewrite length_resize64; reflexivity).
    repeat split; auto.
Qed.

Lemma create_true64 ms self mn mx st f :
  returned (create ms self mn mx st f) = Ok true ->
  exists n,
    Fltb mx mn = false /\ Feqb st (of_Z 0) = false /\
    cast_size_t (tableSize mn mx st) = Some n /\ (Z.of_nat n <= ms)%Z /\
    object (create ms self mn mx st f)
    = mk (map (sample mn st f) (seq 0 n)) mn mx st (outbounds_ self) /\
    calls (create ms self mn mx st f) = map (sample_x mn st) (seq 0 n).
Proof.
  destruct (create_cases64 ms self mn mx st f)
    as [(_ & E) | [(_ & _ & E) | [(n & _ & _ & _ & E) | (n & G & C & L & E)]]];
    rewrite E; cbn [returned object calls]; try discriminate.
  intros _. apply orb_false_iff in G. destruct G as [G1 G2].
  exists n. repeat split; auto.
Qed.

End LookUpTable64Facts.

(** ** The table of doubles: what [create] returns *)

Module LookUpTable64Spec.
Import Binary64 Binary64Facts.
Import LookUpTable64 LookUpTable64Terms LookUpTable64Facts.




(** ** The table of doubles: queries inside the domain *)

Lemma empty_false64 (self : t) : table_ self <> [] -> empty self = false.
Proof.
  unfold empty. destruct (table_ self); [intros H; now elim H | reflexivity].
Qed.

(** What [operator()] computes for [x] inside the domain, from the index
    it computes. *)
Lemma evaluate_index64 (self : t) (x : F) (k : nat) :
  table_ self <> [] ->
  Fltb x (min_ self) = false -> Fltb (max_ self) x = false ->
  index (min_ self) (step_ self) x = Some k ->
  evaluate self x
  = if (k <? length (table_ self) - 1)%nat
    then Ok (interpolate (at_ (table_ self) k) (at_ (table_ self) (k + 1)) x)
    else Ok (snd (at_ (table_ self) (length (table_ self) - 1))).
Proof.
  intros Hne H1 H2 Hk. unfold evaluate, index in *.
  rewrite empty_false64 by exact Hne. rewrite H1, H2, Hk. cbn [orb].
  destruct (k <? length (table_ self) - 1)%nat eqn:L.
  - apply Nat.ltb_lt in L.
    rewrite Nat.min_l by lia.
    replace (k <? length (table_ self) - 1)%nat with true
      by (symmetry; apply Nat.ltb_lt; exact L).
    reflexivity.
  - apply Nat.ltb_ge in L.
    rewrite Nat.min_r by lia. rewrite Nat.ltb_irrefl. reflexivity.
Qed.

(** C1, as amended: for every table that a successful [create] has left
    with at least one sample and every [x] with [min <= x <= max], [k]
    being the interval index [floor((x - min) / step)] as the double
    arithmetic gives it: when [k >= N - 1] the call returns the last
    stored value [y_{N-1}]; otherwise it returns
    [y_k + (y_{k+1} - y_k) * (x - x_k) / (x_{k+1} - x_k)], computed in
    double from the stored pairs, which are the [(x_i, f(x_i))] of
    [create].  That [x] be at or beyond the last stored abscissa does not
    decide the first case: rounding can leave [k] below [N - 1] there. *)
Theorem evaluate_inside64 ms self mn mx st f x k :
  returned (create ms self mn mx st f) = Ok true ->
  table_ (object (create ms self mn mx st f)) <> [] ->
  Fleb mn x = true -> Fleb x mx = true ->
  index mn st x = Some k ->
  let tbl := table_ (object (create ms self mn mx st f)) in
  let N := length tbl in
  (forall i, (i < N)%nat -> at_ tbl i = (sample_x mn st i, f (sample_x mn st i))) /\
  ((N - 1 <= k)%nat ->
   evaluate (object (create ms self mn mx st f)) x = Ok (snd (at_ tbl (N - 1)))) /\
  ((k < N - 1)%nat ->
   evaluate (object (create ms self mn mx st f)) x
   = Ok (Fadd (snd (at_ tbl k))
           (Fdiv (Fmul (Fsub (snd (at_ tbl (k + 1))) (snd (at_ tbl k)))
                       (Fsub x (fst (at_ tbl k))))
                 (Fsub (fst (at_ tbl (k + 1))) (fst (at_ tbl k)))))).
Proof.
  intros Hc Hne H1 H2 Hk tbl N.
  destruct (create_true64 _ _ _ _ _ _ Hc) as (n & _ & _ & _ & _ & Hobj & _).
  assert (Hev := evaluate_index64 (object (create ms self mn mx st f)) x k Hne).
  fold tbl in Hev. fold N in Hev.
  assert (Htbl : tbl = map (sample mn st f) (seq 0 n))
    by (unfold tbl; rewrite Hobj; reflexivity).
  assert (HN : N = n)
    by (unfold N; rewrite Htbl, length_map, length_seq; reflexivity).
  rewrite Hobj in Hev. cbn [min_ max_ step_] in Hev.
  specialize (Hev (Fleb_not_Fltb _ _ H1) (Fleb_not_Fltb _ _ H2) Hk).
  rewrite <- Hobj in Hev.
  split.
  - intros i Hi. rewrite Htbl. apply at_samples64. lia.
  - split; intros L.
    + rewrite Hev.
      replace (k <? N - 1)%nat with false by (symmetry; apply Nat.ltb_ge; exact L).
      reflexivity.
    + rewrite Hev.
      replace (k <? N - 1)%nat with true by (symmetry; apply Nat.ltb_lt; exact L).
      reflexivity.
Qed.

(** The squares on [[0, 1]], step one quarter, at [x = 3/8]: index 1 and
    the value [5/32]. *)
Lemma evaluate_inside_witness64 :
  evaluate (object squares64) (dec 3 8) = Ok (dec 5 32).
Proof.
  destruct (evaluate_inside64 max_size_lp64 fresh (of_Z 0) (of_Z 1) (dec 1 4)
              (fun x => Fmul x x) (dec 3 8) 1%nat) as (_ & _ & H);
    [reflexivity | vm_compute; discriminate | reflexivity | reflexivity
    | reflexivity |].
  unfold squares64. rewrite H by (vm_compute; lia).
  vm_compute. reflexivity.
Defined.

(** C1 as stated fails.  The table of the cubes on [[0.3, 1.2]], step
    0.89, holds two pairs; at its last stored abscissa [x_1], which lies
    in [[min, max]], the index computed is 0 and the call returns the
    interpolated value, which is not [y_1]. *)
Lemma evaluate_last_abscissa_counterexample :
  returned cubes = Ok true /\
  length (table_ (object cubes)) = 2%nat /\
  Fleb (dec 3 10) (fst (at_ (table_ (object cubes)) 1)) = true /\
  Fleb (fst (at_ (table_ (object cubes)) 1)) (dec 12 10) = true /\
  index (dec 3 10) (dec 89 100) (fst (at_ (table_ (object cubes)) 1)) = Some 0%nat /\
  evaluate (object cubes) (fst (at_ (table_ (object cubes)) 1))
  = Ok (S754_finite false 7589281444460038 (-52)) /\
  snd (at_ (table_ (object cubes)) 1) = S754_finite false 7589281444460037 (-52).
Proof. vm_compute. repeat split; reflexivity. Qed.

(** ** The table of doubles: sample points *)

(** At its left abscissa the interpolation formula gives the left value. *)
Lemma interpolate_at_left64 p q :
  is_finite (fst p) = true -> is_nan (snd p) = false ->
  is_finite (Fsub (snd q) (snd p)) = true ->
  is_nan (Fsub (fst q) (fst p)) = false ->
  is_zero (Fsub (fst q) (fst p)) = false ->
  Feqb (interpolate p q (fst p)) (snd p) = true.
Proof.
  intros Hx Hy Hd Hg1 Hg2. unfold interpolate.
  rewrite (Fsub_self (fst p) Hx).
  apply Fadd_zero_r; [exact Hy |].
  apply Fdiv_zero_l; [| exact Hg1 | exact Hg2].
  apply Fmul_zero_r; [exact Hd | reflexivity].
Qed.

Lemma evaluate_exact_knot64 ms self mn mx st f i :
  returned (create ms self mn mx st f) = Ok true ->
  (i < length (table_ (object (create ms self mn mx st f))))%nat ->
  exact_knot mn mx st f (length (table_ (object (create ms self mn mx st f)))) i ->
  exists v,
    evaluate (object (create ms self mn mx st f)) (sample_x mn st i) = Ok v /\
    Feqb v (f (sample_x mn st i)) = true.
Proof.
  intros Hc Hi (H1 & H2 & Hk & Hy & Hp).
  destruct (create_true64 _ _ _ _ _ _ Hc) as (n & _ & _ & _ & _ & Hobj & _).
  assert (Hne : table_ (object (create ms self mn mx st f)) <> [])
    by (intros E; rewrite E in Hi; simpl in Hi; lia).
  pose proof (evaluate_index64 (object (create ms self mn mx st f))
                (sample_x mn st i) i Hne) as Hev.
  rewrite Hobj in Hev, Hi, Hp |- *. cbn [min_ max_ step_ table_] in *.
  rewrite length_map, length_seq in *.
  specialize (Hev (Fleb_not_Fltb _ _ H1) (Fleb_not_Fltb _ _ H2) Hk).
  rewrite Hev.
  destruct (i <? n - 1)%nat eqn:L.
  - apply Nat.ltb_lt in L. destruct (Hp L) as (Hx & Hd & Hg1 & Hg2).
    rewrite !at_samples64 by lia.
    eexists. split; [reflexivity |].
    apply (interpolate_at_left64 (sample mn st f i) (sample mn st f (i + 1)));
      assumption.
  - apply Nat.ltb_ge in L.
    rewrite at_samples64 by lia.
    replace (n - 1)%nat with i by lia.
    eexists. split; [reflexivity |]. apply Feqb_refl. exact Hy.
Qed.

(** With [min] finite and not zero and [step] finite, [x_0] is [min] and
    the index computed for it is 0. *)
Lemma sample_x_064 mn st :
  is_finite mn = true -> is_zero mn = false -> is_finite st = true ->
  sample_x mn st 0 = mn.
Proof.
  intros Hm Hz Hs. unfold sample_x.
  apply Fadd_zero_r_finite; [exact Hm | exact Hz |].
  apply Fmul_zero_l; [reflexivity | exact Hs].
Qed.

Lemma index_min64 mn st :
  is_finite mn = true -> Fltb (of_Z 0) st = true -> index mn st mn = Some 0%nat.
Proof.
  intros Hm Hs. unfold index. rewrite (Fsub_self mn Hm).
  assert (Hz : is_zero (Fdiv (S754_zero false) st) = true).
  { destruct (Fltb_not_nan _ _ Hs) as [_ Hn].
    apply Fdiv_zero_l; [reflexivity | exact Hn |].
    destruct st; try reflexivity. discriminate Hs. }
  rewrite (floor_zero _ Hz). apply cast_zero. exact Hz.
Qed.

(** C5, as amended: after a successful [create], at every sample point
    [x_i = min + i * step] that the double arithmetic handles exactly
    ([exact_knot]: [x_i] in [[min, max]] with computed index [i], and the
    operands of the interpolation finite with distinct abscissae) the call
    returns a number equal to [f(x_i)]; and when [min < max], [step > 0],
    [min] is finite and not zero and [step] is finite, so does the call at
    [min] with [f(min)] under the same provisos for the first interval.
    At a sample point whose index rounding puts in the previous interval
    the value can differ from [f(x_i)], and with coinciding abscissae it is
    NaN. *)
Theorem evaluate_at_samples64 ms self mn mx st f :
  returned (create ms self mn mx st f) = Ok true ->
  (forall i,
     (i < length (table_ (object (create ms self mn mx st f))))%nat ->
     exact_knot mn mx st f
       (length (table_ (object (create ms self mn mx st f)))) i ->
     exists v,
       evaluate (object (create ms self mn mx st f)) (sample_x mn st i) = Ok v /\
       Feqb v (f (sample_x mn st i)) = true) /\
  (Fltb mn mx = true -> Fltb (of_Z 0) st = true ->
   is_finite mn = true -> is_zero mn = false -> is_finite st = true ->
   table_ (object (create ms self mn mx st f)) <> [] ->
   is_nan (f mn) = false ->
   ((1 < length (table_ (object (create ms self mn mx st f))))%nat ->
    is_finite (Fsub (f (sample_x mn st 1)) (f mn)) = true /\
    is_nan (Fsub (sample_x mn st 1) mn) = false /\
    is_zero (Fsub (sample_x mn st 1) mn) = false) ->
   exists v,
     evaluate (object (create ms self mn mx st f)) mn = Ok v /\
     Feqb v (f mn) = true).
Proof.
  intros Hc. split.
  - intros i Hi Hk. apply evaluate_exact_knot64; assumption.
  - intros Hlt Hst Hm Hz Hs Hne Hy Hp.
    pose proof (sample_x_064 mn st Hm Hz Hs) as E0.
    destruct (Fltb_not_nan _ _ Hlt) as [Hn _].
    set (N := length (table_ (object (create ms self mn mx st f)))) in *.
    assert (HN : (0 < N)%nat).
    { unfold N. destruct (table_ (object (create ms self mn mx st f)));
        [now elim Hne | simpl; lia]. }
    destruct (evaluate_exact_knot64 ms self mn mx st f 0 Hc HN) as (v & Hv & Ev).
    { unfold exact_knot. rewrite E0.
      split; [apply Fleb_refl; exact Hn |].
      split; [apply Fltb_Fleb; exact Hlt |].
      split; [apply index_min64; assumption |].
      split; [exact Hy |].
      intros L. split; [exact Hm |]. apply Hp. fold N. lia. }
    rewrite E0 in Hv, Ev. exists v. split; assumption.
Qed.

(** The squares on [[0, 1]], step one quarter, at the knot [x_2 = 1/2]. *)
Lemma evaluate_at_samples_witness64 :
  exists v,
    evaluate (object squares64) (dec 1 2) = Ok v /\ Feqb v (dec 1 4) = true.
Proof.
  destruct (evaluate_at_samples64 max_size_lp64 fresh (of_Z 0) (of_Z 1) (dec 1 4)
              (fun x => Fmul x x) eq_refl) as [H _].
  destruct (H 2%nat) as (v & Hv & Ev).
  - vm_compute. lia.
  - unfold exact_knot. vm_compute. repeat split; reflexivity.
  - exists v. split; [exact Hv | exact Ev].
Defined.

(** C5 as stated fails.  In the table of [x * x + 1/3] on [[0.7, 2.7]],
    step 0.44, the sample point [x_1] lies in [[min, max]], the index
    computed for it is 0, and the call returns a number other than
    [f(x_1)]; in the table on [[1e17, 1e17 + 32]], step 1, [x_1 = x_0]
    and the call at [min] returns NaN. *)
Lemma evaluate_at_samples_counterexample64 :
  (returned parabolas = Ok true /\
   Fleb (dec 7 10) (sample_x (dec 7 10) (dec 44 100) 1) = true /\
   Fleb (sample_x (dec 7 10) (dec 44 100) 1) (dec 27 10) = true /\
   index (dec 7 10) (dec 44 100) (sample_x (dec 7 10) (dec 44 100) 1)
   = Some 0%nat /\
   evaluate (object parabolas) (sample_x (dec 7 10) (dec 44 100) 1)
   = Ok (S754_finite false 7354077951520862 (-52)) /\
   parabola (sample_x (dec 7 10) (dec 44 100) 1)
   = S754_finite false 7354077951520861 (-52)) /\
  (returned coincident = Ok true /\
   evaluate (object coincident) (of_Z (10 ^ 17)) = Ok S754_nan).
Proof. vm_compute. repeat split; reflexivity. Qed.

(** ** The table of doubles: monotonicity *)





End LookUpTable64Spec.
